(** * Local file store of the charm server: model and verification

    This development embeds [server/storage/local/storage.go] (package
    [localstorage]): the store type [LocalFileStore], the synthetic
    directory handle [DirFile], and the operations [NewLocalFileStore],
    [Get], [Put] and [Delete].

    The Go standard library calls made by that file ([path/filepath],
    [os], [io], [bytes], [encoding/json]) are modelled as functions on an
    explicit operating-system state: a directory tree, a working
    directory, a clock and a table of open file descriptors.  The model
    is sequential and deterministic.  Its assumptions are: one process,
    no symbolic links (so a path is resolved lexically), a umask of zero,
    and no access-control or device failures; the failures it keeps are
    the structural ones ([ENOENT], [ENOTDIR], [EISDIR], [EINVAL],
    [EBUSY]) and those of closed or nil handles. *)

From stdpp Require Import gmap strings list fin_maps.
From Stdlib Require Import ZArith Ascii.
From Stdlib.Strings Require Import Byte.

#[local] Open Scope string_scope.
#[local] Open Scope list_scope.
#[local] Set Warnings "-register-all".

(** ** Paths: [strings] and [path/filepath] on Unix *)

Module strings.

(** [strings.Split(s, "/")]: the pieces of [s] between separators; a
    string with [n] separators has [n + 1] pieces, some possibly empty. *)
Fixpoint Split (s : string) : list string :=
  match s with
  | EmptyString => [EmptyString]
  | String c rest =>
      if Ascii.eqb c "/"%char then EmptyString :: Split rest
      else match Split rest with
           | seg :: segs => String c seg :: segs
           | [] => [String c EmptyString]
           end
  end.

(** [strings.Join(elems, "/")]. *)
Fixpoint Join (elems : list string) : string :=
  match elems with
  | [] => EmptyString
  | [e] => e
  | e :: rest => e +:+ "/" +:+ Join rest
  end.

End strings.

Module filepath.

(** A path is rooted when its first byte is the separator. *)
Definition rooted (path : string) : bool :=
  match path with
  | String c _ => Ascii.eqb c "/"%char
  | EmptyString => false
  end.

(** One step of [Clean]: [out] is the cleaned prefix, innermost
    component first.  Empty and [.] components are dropped; [..] removes
    the preceding component when there is one that is not itself [..],
    is dropped at the top of a rooted path, and is kept otherwise. *)
Definition clean_step (r : bool) (out : list string) (seg : string) : list string :=
  if bool_decide (seg = EmptyString) || bool_decide (seg = ".") then out
  else if bool_decide (seg = "..") then
    match out with
    | top :: out' => if bool_decide (top = "..") then seg :: out else out'
    | [] => if r then [] else [seg]
    end
  else seg :: out.

(** [filepath.Clean]: the shortest path equivalent to [path] by purely
    lexical processing. *)
Definition Clean (path : string) : string :=
  if bool_decide (path = EmptyString) then "."
  else
    let out := rev (fold_left (clean_step (rooted path)) (strings.Split path) []) in
    if rooted path then "/" +:+ strings.Join out
    else match out with
         | [] => "."
         | _ => strings.Join out
         end.

(** [filepath.Join]: leading empty elements are ignored, the rest is
    joined with the separator and cleaned; all-empty input gives the empty string. *)
Fixpoint Join (elem : list string) : string :=
  match elem with
  | [] => EmptyString
  | e :: rest =>
      if bool_decide (e = EmptyString) then Join rest
      else Clean (strings.Join (e :: rest))
  end.

(** The prefix of [path] up to and including its last separator. *)
Definition upto_last_sep (path : string) : string :=
  match rev (strings.Split path) with
  | _ :: (_ :: _) as front => strings.Join (rev front) +:+ "/"
  | _ => EmptyString
  end.

(** [filepath.Dir]: all but the last element of [path], cleaned. *)
Definition Dir (path : string) : string := Clean (upto_last_sep path).

(** The last element of a path, as [os.Stat] names its result. *)
Definition basename (path : string) : string :=
  match filter (λ s, s ≠ EmptyString) (rev (strings.Split path)) with
  | s :: _ => s
  | [] => if rooted path then "/" else "."
  end.

End filepath.

(** ** Errors and results *)

(** The [errno] values the model can produce. *)
Inductive Errno := ENOENT | ENOTDIR | EISDIR | EINVAL | EBUSY | EBADF.

(** Go [error] values: the sentinels of [io/fs], [io] and [os], an
    [fs.PathError] wrapping an [errno], an error built from a message
    ([fmt.Errorf]), and a marshalling error of [encoding/json]. *)
Inductive error :=
| ErrNotExist
| ErrInvalid
| ErrClosed
| EOF
| PathError (e : Errno)
| Errorf (msg : string)
| MarshalerError.

(** A Go result pair [(T, error)] of which exactly one side is set. *)
Inductive result (A : Type) :=
| Ok (a : A)
| Err (e : error).
Arguments Ok {A} a.
Arguments Err {A} e.

(** The value side of a result pair: [nil] when the call failed. *)
Definition value {A} (r : result A) : option A :=
  match r with
  | Ok a => Some a
  | Err _ => None
  end.

(** [os.IsNotExist]: true of the sentinel and of a wrapped [ENOENT], and
    of nothing else; in particular not of [ENOTDIR]. *)
Definition IsNotExist (err : error) : bool :=
  match err with
  | ErrNotExist => true
  | PathError ENOENT => true
  | _ => false
  end.

(** ** File modes and file information ([io/fs]) *)

Module fs.

Definition ModeDir : Z := 2147483648.
Definition ModeSetuid : Z := 8388608.
Definition ModeSetgid : Z := 4194304.
Definition ModeSticky : Z := 1048576.
Definition ModePerm : Z := 511.

(** [FileMode.IsDir] and [FileMode.Perm]. *)
Definition IsDir (m : Z) : bool := negb (Z.land m ModeDir =? 0)%Z.
Definition Perm (m : Z) : Z := Z.land m ModePerm.

(** What a [fs.FileInfo] answers: base name, size, mode, modification time. *)
Record FileInfo := {
  Name : string;
  Size : Z;
  Mode : Z;
  ModTime : Z
}.

End fs.

(** The bits [chmod] keeps of a Go mode: permissions, setuid, setgid, sticky. *)
Definition syscallMode (m : Z) : Z :=
  Z.land m (Z.lor fs.ModePerm (Z.lor fs.ModeSetuid (Z.lor fs.ModeSetgid fs.ModeSticky))).

(** ** The directory tree *)

(** A node is a regular file (bytes, mode bits, modification time) or a
    directory (entries by name, mode bits, modification time). *)
Inductive node :=
| File (data : list byte) (mode : Z) (mtime : Z)
| Directory (entries : gmap string node) (mode : Z) (mtime : Z).

(** The outcome of walking a location down the tree, as the kernel
    reports it: the node, a missing component ([ENOENT]), or a component
    that is a regular file with more of the path to go ([ENOTDIR]). *)
Inductive lookup_result :=
| Found (n : node)
| NoEnt
| NotDir.

Fixpoint walk (loc : list string) (n : node) : lookup_result :=
  match loc with
  | [] => Found n
  | s :: rest =>
      match n with
      | File _ _ _ => NotDir
      | Directory es _ _ =>
          match es !! s with
          | Some c => walk rest c
          | None => NoEnt
          end
      end
  end.

(** Apply [f] to the node at [loc]; nothing changes when there is none. *)
Fixpoint alter_node (f : node → node) (loc : list string) (n : node) : node :=
  match loc with
  | [] => f n
  | s :: rest =>
      match n with
      | File _ _ _ => n
      | Directory es m t => Directory (alter (alter_node f rest) s es) m t
      end
  end.

(** Size reported for a directory; the value is system dependent. *)
Definition dir_size : Z := 4096.

Definition is_dir (n : node) : bool :=
  match n with
  | File _ _ _ => false
  | Directory _ _ _ => true
  end.

(** The [stat] record of a node under the name [name]: the mode is
    rebuilt from the permission and special bits and the type of the node. *)
Definition node_info (name : string) (n : node) : fs.FileInfo :=
  match n with
  | File d m t =>
      {| fs.Name := name; fs.Size := Z.of_nat (length d);
         fs.Mode := syscallMode m; fs.ModTime := t |}
  | Directory _ m t =>
      {| fs.Name := name; fs.Size := dir_size;
         fs.Mode := Z.lor (syscallMode m) fs.ModeDir; fs.ModTime := t |}
  end.

(** Directory updates: adding or replacing an entry, removing one; both
    stamp the directory with the time of the change. *)
Definition add_child (name : string) (c : node) (now : Z) (d : node) : node :=
  match d with
  | File _ _ _ => d
  | Directory es m _ => Directory (<[name := c]> es) m now
  end.

Definition del_child (name : string) (now : Z) (d : node) : node :=
  match d with
  | File _ _ _ => d
  | Directory es m _ => Directory (delete name es) m now
  end.

Definition set_mode (m' : Z) (n : node) : node :=
  match n with
  | File d _ t => File d m' t
  | Directory es _ t => Directory es m' t
  end.

(** [mkdir -p] from the node [n]: every missing directory on the way to
    [loc] is created with permission bits [perm]; an existing directory is
    left as it is; a regular file on the way is an error ([None]). *)
Fixpoint mkdir_all (perm now : Z) (loc : list string) (n : node) : option node :=
  match n with
  | File _ _ _ => None
  | Directory es m t =>
      match loc with
      | [] => Some n
      | s :: rest =>
          match es !! s with
          | Some c =>
              match mkdir_all perm now rest c with
              | Some c' => Some (Directory (<[s := c']> es) m t)
              | None => None
              end
          | None =>
              match mkdir_all perm now rest (Directory ∅ perm now) with
              | Some c' => Some (Directory (<[s := c']> es) m now)
              | None => None
              end
          end
      end
  end.

(** The location split into its parent and its last component. *)
Definition parent_of (loc : list string) : option (list string * string) :=
  match rev loc with
  | [] => None
  | name :: front => Some (rev front, name)
  end.

(** Bytes [b] written at offset [off] of the content [d]. *)
Definition write_at (off : nat) (b d : list byte) : list byte :=
  take off d ++ replicate (off - length d) x00 ++ b ++ drop (off + length b) d.

(** ** The operating-system state *)

(** An open file description: where the file is, the name it was opened
    under, and the read/write offset. *)
Record openfile := {
  of_loc : list string;
  of_name : string;
  of_off : nat
}.

Record OS := {
  root : node;
  cwd : list string;
  clock : Z;
  fds : gmap nat openfile
}.

Definition set_root (r : node) (st : OS) : OS :=
  {| root := r; cwd := cwd st; clock := clock st; fds := fds st |}.

Definition set_fds (t : gmap nat openfile) (st : OS) : OS :=
  {| root := root st; cwd := cwd st; clock := clock st; fds := t |}.

(** One component of path resolution; [at_] is the location reached so
    far, innermost component first.  The parent of the root is the root. *)
Definition walk_step (at_ : list string) (seg : string) : list string :=
  if bool_decide (seg = EmptyString) || bool_decide (seg = ".") then at_
  else if bool_decide (seg = "..") then tail at_
  else seg :: at_.

(** The absolute location a path names for a process whose working
    directory is [wd]. *)
Definition abs_segments (wd : list string) (path : string) : list string :=
  rev (fold_left walk_step (strings.Split path)
         (if filepath.rooted path then [] else rev wd)).

(** Resolution as a system call does it: the empty path names nothing. *)
Definition locate (wd : list string) (path : string) : option (list string) :=
  if bool_decide (path = EmptyString) then None
  else Some (abs_segments wd path).

(** ** A state monad for the calls *)

Definition M (A : Type) : Type := OS → A * OS.

#[global] Instance M_ret : MRet M := λ A a st, (a, st).
#[global] Instance M_bind : MBind M := λ A B k c st, let '(a, st') := c st in k a st'.

(** [defer d] around a body: [d] runs when the body returns, whatever it
    returns, and its own result is dropped. *)
Definition defer {A B} (d : M B) (body : M A) : M A :=
  r ← body; _ ← d; mret r.

Definition get_state : M OS := λ st, (st, st).
Definition put_state (st' : OS) : M unit := λ _, (tt, st').

(** ** System calls ([os], [io]) *)

(** A descriptor that is not in use. *)
Definition fresh_fd (t : gmap nat openfile) : nat := fresh (dom t).

Definition lookup_error (r : lookup_result) : error :=
  match r with
  | NotDir => PathError ENOTDIR
  | _ => PathError ENOENT
  end.

(** [os.Stat]. *)
Definition os_Stat (name : string) : M (result fs.FileInfo) :=
  st ← get_state;
  match locate (cwd st) name with
  | None => mret (Err (PathError ENOENT))
  | Some loc =>
      match walk loc (root st) with
      | Found n => mret (Ok (node_info (filepath.basename name) n))
      | r => mret (Err (lookup_error r))
      end
  end.

(** Allocation of a descriptor for the node at [loc], offset zero. *)
Definition alloc_fd (loc : list string) (name : string) : M nat :=
  st ← get_state;
  let fd := fresh_fd (fds st) in
  _ ← put_state (set_fds (<[fd := {| of_loc := loc; of_name := name; of_off := 0 |}]> (fds st)) st);
  mret fd.

(** [os.Open]: read-only; files and directories alike can be opened. *)
Definition os_Open (name : string) : M (result nat) :=
  st ← get_state;
  match locate (cwd st) name with
  | None => mret (Err (PathError ENOENT))
  | Some loc =>
      match walk loc (root st) with
      | Found _ => fd ← alloc_fd loc (filepath.basename name); mret (Ok fd)
      | r => mret (Err (lookup_error r))
      end
  end.

(** Mode of a file that [os.Create] makes: [0666] before umask. *)
Definition default_file_mode : Z := 438.

(** [os.Create]: [OpenFile(name, O_RDWR|O_CREATE|O_TRUNC, 0666)].  An
    existing file is truncated and keeps its mode; a missing one is
    created empty in its parent directory; a directory cannot be opened
    for writing. *)
Definition os_Create (name : string) : M (result nat) :=
  st ← get_state;
  match locate (cwd st) name with
  | None => mret (Err (PathError ENOENT))
  | Some loc =>
      match walk loc (root st) with
      | Found (Directory _ _ _) => mret (Err (PathError EISDIR))
      | Found (File _ m _) =>
          _ ← put_state (set_root (alter_node (λ _, File [] m (clock st)) loc (root st)) st);
          fd ← alloc_fd loc (filepath.basename name); mret (Ok fd)
      | NotDir => mret (Err (PathError ENOTDIR))
      | NoEnt =>
          match parent_of loc with
          | Some (parent, base) =>
              match walk parent (root st) with
              | Found (Directory _ _ _) =>
                  let new := File [] default_file_mode (clock st) in
                  _ ← put_state (set_root (alter_node (add_child base new (clock st)) parent (root st)) st);
                  fd ← alloc_fd loc (filepath.basename name); mret (Ok fd)
              | _ => mret (Err (PathError ENOENT))
              end
          | None => mret (Err (PathError ENOENT))
          end
      end
  end.

(** [os.MkdirAll]. *)
Definition os_MkdirAll (path : string) (perm : Z) : M (option error) :=
  st ← get_state;
  match locate (cwd st) path with
  | None => mret (Some (PathError ENOENT))
  | Some loc =>
      match mkdir_all perm (clock st) loc (root st) with
      | Some r' => _ ← put_state (set_root r' st); mret None
      | None => mret (Some (PathError ENOTDIR))
      end
  end.

(** Whether a path is [.] or ends in [/.]; [os.RemoveAll] refuses those. *)
Definition endsWithDot (path : string) : bool :=
  match rev (strings.Split path) with
  | last :: _ => bool_decide (last = ".")
  | [] => false
  end.

(** [os.RemoveAll] in its Unix implementation: the empty path and a
    missing path are not errors; a path that runs through a regular file
    is reported as [ENOTDIR]; the root of the file system loses its
    contents and is then reported busy. *)
Definition os_RemoveAll (path : string) : M (option error) :=
  if bool_decide (path = EmptyString) then mret None
  else if endsWithDot path then mret (Some (PathError EINVAL))
  else
    st ← get_state;
    match locate (cwd st) path with
    | None => mret None
    | Some loc =>
        match walk loc (root st) with
        | NoEnt => mret None
        | NotDir => mret (Some (PathError ENOTDIR))
        | Found _ =>
            match parent_of loc with
            | Some (parent, base) =>
                _ ← put_state (set_root (alter_node (del_child base (clock st)) parent (root st)) st);
                mret None
            | None =>
                _ ← put_state (set_root (alter_node (λ n,
                       match n with
                       | Directory _ m _ => Directory ∅ m (clock st)
                       | File _ _ _ => n
                       end) [] (root st)) st);
                mret (Some (PathError EBUSY))
            end
        end
    end.

(** Methods of [os.File]; the receiver is a descriptor, or [nil]. *)

(** [os.File.Close]: releases the descriptor. *)
Definition f_Close (f : option nat) : M (option error) :=
  match f with
  | None => mret (Some ErrInvalid)
  | Some fd =>
      st ← get_state;
      match fds st !! fd with
      | None => mret (Some ErrClosed)
      | Some _ => _ ← put_state (set_fds (delete fd (fds st)) st); mret None
      end
  end.

(** [os.File.Read] into a buffer of [n] bytes. *)
Definition f_Read (fd : nat) (n : nat) : M (result (list byte)) :=
  st ← get_state;
  match fds st !! fd with
  | None => mret (Err ErrClosed)
  | Some o =>
      match walk (of_loc o) (root st) with
      | Found (File d _ _) =>
          let chunk := take n (drop (of_off o) d) in
          match n, chunk with
          | O, _ => mret (Ok [])
          | _, [] => mret (Err EOF)
          | _, _ =>
              let o' := {| of_loc := of_loc o; of_name := of_name o;
                           of_off := of_off o + length chunk |} in
              _ ← put_state (set_fds (<[fd := o']> (fds st)) st);
              mret (Ok chunk)
          end
      | Found (Directory _ _ _) => mret (Err (PathError EISDIR))
      | _ => mret (Err (PathError EBADF))
      end
  end.

(** [os.File.Write]: the bytes go in at the offset, which advances. *)
Definition f_Write (fd : nat) (b : list byte) : M (result nat) :=
  st ← get_state;
  match fds st !! fd with
  | None => mret (Err ErrClosed)
  | Some o =>
      match walk (of_loc o) (root st) with
      | Found (File d m _) =>
          let o' := {| of_loc := of_loc o; of_name := of_name o;
                       of_off := of_off o + length b |} in
          _ ← put_state
                (set_fds (<[fd := o']> (fds st))
                   (set_root (alter_node (λ _, File (write_at (of_off o) b d) m (clock st))
                                (of_loc o) (root st)) st));
          mret (Ok (length b))
      | _ => mret (Err (PathError EBADF))
      end
  end.

(** [os.File.Chmod]. *)
Definition f_Chmod (fd : nat) (mode : Z) : M (option error) :=
  st ← get_state;
  match fds st !! fd with
  | None => mret (Some ErrClosed)
  | Some o =>
      match walk (of_loc o) (root st) with
      | Found _ =>
          _ ← put_state (set_root (alter_node (set_mode (syscallMode mode)) (of_loc o) (root st)) st);
          mret None
      | _ => mret (Some (PathError EBADF))
      end
  end.

(** [os.File.Stat]. *)
Definition f_Stat (fd : nat) : M (result fs.FileInfo) :=
  st ← get_state;
  match fds st !! fd with
  | None => mret (Err ErrClosed)
  | Some o =>
      match walk (of_loc o) (root st) with
      | Found n => mret (Ok (node_info (of_name o) n))
      | _ => mret (Err (PathError EBADF))
      end
  end.

(** A [fs.DirEntry] as [ReadDir] yields it: the directory it was read
    from, its name and its type. *)
Record DirEntry := {
  de_dir : list string;
  de_name : string;
  de_isDir : bool
}.

Definition to_entry (dir : list string) (kv : string * node) : DirEntry :=
  {| de_dir := dir; de_name := kv.1; de_isDir := is_dir kv.2 |}.

(** [os.File.ReadDir(n)] with [n <= 0]: every entry of the directory,
    in directory order, in one slice. *)
Definition f_ReadDir (fd : nat) : M (result (list DirEntry)) :=
  st ← get_state;
  match fds st !! fd with
  | None => mret (Err ErrClosed)
  | Some o =>
      match walk (of_loc o) (root st) with
      | Found (Directory es _ _) =>
          mret (Ok (map (to_entry (of_loc o)) (map_to_list es)))
      | Found (File _ _ _) => mret (Err (PathError ENOTDIR))
      | _ => mret (Err (PathError EBADF))
      end
  end.

(** [DirEntry.Info]: an [lstat] of the entry at the time of the call. *)
Definition DirEntry_Info (v : DirEntry) : M (result fs.FileInfo) :=
  st ← get_state;
  match walk (de_dir v ++ [de_name v]) (root st) with
  | Found n => mret (Ok (node_info (de_name v) n))
  | r => mret (Err (lookup_error r))
  end.

(** An [io.Reader] as a content source: the bytes it delivers, and the
    error (if any) with which it ends instead of [io.EOF]. *)
Record Reader := {
  rd_data : list byte;
  rd_err : option error
}.

(** [bytes.NewReader]. *)
Definition bytes_NewReader (c : list byte) : Reader :=
  {| rd_data := c; rd_err := None |}.

(** [io.Copy] to an [os.File]: everything the source delivers is
    written; the result is the count and the first error met. *)
Definition io_Copy (dst : nat) (src : Reader) : M (nat * option error) :=
  w ← f_Write dst (rd_data src);
  match w with
  | Err e => mret (0, Some e)
  | Ok n => mret (n, rd_err src)
  end.

(** ** [bytes.Buffer] *)

Record Buffer := {
  buf : list byte;
  off : nat
}.

(** [bytes.NewBuffer]. *)
Definition bytes_NewBuffer (b : list byte) : Buffer := {| buf := b; off := 0 |}.

(** [Buffer.Write] appends; it never fails. *)
Definition Buffer_Write (b : Buffer) (p : list byte) : Buffer :=
  {| buf := buf b ++ p; off := off b |}.

(** [Buffer.Read] into [n] bytes: the next unread bytes; an exhausted
    buffer is reset and answers [io.EOF] (or nothing, for [n = 0]). *)
Definition Buffer_Read (b : Buffer) (n : nat) : Buffer * result (list byte) :=
  match drop (off b) (buf b) with
  | [] => (bytes_NewBuffer [], match n with O => Ok [] | _ => Err EOF end)
  | rest =>
      let chunk := take n rest in
      ({| buf := buf b; off := off b + length chunk |}, Ok chunk)
  end.

(** ** Listing entries and their encoding *)

Module charm.

(** Modelled from the spec: the type [FileInfo] of package [proto] is
    declared outside the sources at hand.  The listing format of the
    specification gives its fields: name, is-directory flag, size,
    modification time and mode. *)
Record FileInfo := {
  Name : string;
  IsDir : bool;
  Size : Z;
  ModTime : Z;
  Mode : Z
}.

End charm.

(** A Go slice is [nil] or holds elements; [make(T, 0)] is not [nil]. *)
Inductive slice (A : Type) :=
| nil_slice
| make_slice (elems : list A).
Arguments nil_slice {A}.
Arguments make_slice {A} elems.

Definition append {A} (s : slice A) (x : A) : slice A :=
  match s with
  | nil_slice => make_slice [x]
  | make_slice l => make_slice (l ++ [x])
  end.

Module json.

Definition null : list byte := [x6e; x75; x6c; x6c].

(** Elements between brackets, separated by commas. *)
Fixpoint commas (docs : list (list byte)) : list byte :=
  match docs with
  | [] => []
  | [d] => d
  | d :: rest => d ++ x2c :: commas rest
  end.

Fixpoint marshal_all {A} (marshal : A → option (list byte)) (l : list A) : option (list (list byte)) :=
  match l with
  | [] => Some []
  | x :: rest =>
      match marshal x, marshal_all marshal rest with
      | Some d, Some ds => Some (d :: ds)
      | _, _ => None
      end
  end.

(** [json.Marshal] of a slice: [null] for a nil slice, an array
    otherwise; an element that cannot be encoded fails the whole call. *)
Definition Marshal {A} (marshal : A → option (list byte)) (v : slice A) : result (list byte) :=
  match v with
  | nil_slice => Ok null
  | make_slice l =>
      match marshal_all marshal l with
      | Some docs => Ok (x5b :: commas docs ++ [x5d])
      | None => Err MarshalerError
      end
  end.

(** [Encoder.Encode] on an encoder writing to a buffer: the encoding
    followed by a newline is written, or nothing at all on failure. *)
Definition Encode {A} (marshal : A → option (list byte)) (w : Buffer) (v : slice A)
  : Buffer * option error :=
  match Marshal marshal v with
  | Ok doc => (Buffer_Write w (doc ++ [x0a]), None)
  | Err e => (w, Some e)
  end.

End json.

Module storage.

(** Modelled from the spec: [EnsureDir] belongs to package [storage],
    which is outside the sources at hand.  By the specification it
    ensures that [path] exists as a directory, creating it and all its
    missing parents with the given permission bits; it does not fail when
    the directory exists already, and fails with an IO error when the
    creation fails for another reason. *)
Definition EnsureDir (path : string) (mode : Z) : M (option error) :=
  os_MkdirAll path (fs.Perm mode).

End storage.

(** ** [storage.go] *)

(** [LocalFileStore] stores files locally in a folder. *)
Record LocalFileStore := {
  Path : string
}.

(** [DirFile] is a [fs.File] that represents a directory entry. *)
Record DirFile := {
  buffer : Buffer;
  fileInfo : option fs.FileInfo
}.

(** The two implementations of the interface [fs.File] that [Get]
    returns: an [os.File] (its descriptor) or a [DirFile]. *)
Inductive fs_File :=
| os_File (fd : nat)
| dir_File (df : DirFile).

(** [DirFile.Stat] returns the file information. *)
Definition DirFile_Stat (df : DirFile) : result fs.FileInfo :=
  match fileInfo df with
  | None => Err (Errorf "missing file info")
  | Some info => Ok info
  end.

(** [DirFile.Read] reads from the buffer. *)
Definition DirFile_Read (df : DirFile) (n : nat) : DirFile * result (list byte) :=
  let '(b, r) := Buffer_Read (buffer df) n in
  ({| buffer := b; fileInfo := fileInfo df |}, r).

(** [DirFile.Close] is a no-op. *)
Definition DirFile_Close (df : DirFile) : option error := None.

(** Method dispatch on a [fs.File]; a read also answers the handle as
    the call leaves it. *)
Definition File_Stat (h : fs_File) : M (result fs.FileInfo) :=
  match h with
  | os_File fd => f_Stat fd
  | dir_File df => mret (DirFile_Stat df)
  end.

Definition File_Read (h : fs_File) (n : nat) : M (fs_File * result (list byte)) :=
  match h with
  | os_File fd => r ← f_Read fd n; mret (h, r)
  | dir_File df => let '(df', r) := DirFile_Read df n in mret (dir_File df', r)
  end.

Definition File_Close (h : fs_File) : M (option error) :=
  match h with
  | os_File fd => f_Close (Some fd)
  | dir_File df => mret (DirFile_Close df)
  end.

(** [NewLocalFileStore] creates a store in the provided path. *)
Definition NewLocalFileStore (path : string) : M (result LocalFileStore) :=
  err ← storage.EnsureDir path 448;
  match err with
  | Some e => mret (Err e)
  | None => mret (Ok {| Path := path |})
  end.

Section Store.

(** The encoding of one listing entry by [encoding/json]; it depends on
    the field tags of [charm.FileInfo], and fails on a value it cannot
    represent. *)
Variable marshal : charm.FileInfo → option (list byte).

(** The loop of [Get] over the directory entries. *)
Fixpoint collect (rds : list DirEntry) (fis : slice charm.FileInfo)
  : M (result (slice charm.FileInfo)) :=
  match rds with
  | [] => mret (Ok fis)
  | v :: rest =>
      r ← DirEntry_Info v;
      match r with
      | Err e => mret (Err e)
      | Ok fi =>
          let fin := {| charm.Name := de_name v;
                        charm.IsDir := de_isDir v;
                        charm.Size := fs.Size fi;
                        charm.ModTime := fs.ModTime fi;
                        charm.Mode := fs.Mode fi |} in
          collect rest (append fis fin)
      end
  end.

(** [Get] returns an [fs.File] for the given Charm ID and path. *)
Definition Get (lfs : LocalFileStore) (charmID path : string) : M (result fs_File) :=
  let fp := filepath.Join [Path lfs; charmID; path] in
  s ← os_Stat fp;
  match s with
  | Err err => if IsNotExist err then mret (Err ErrNotExist) else mret (Err err)
  | Ok info =>
      o ← os_Open fp;
      match o with
      | Err err => mret (Err err)
      | Ok f =>
          if fs.IsDir (fs.Mode info) then
            rd ← f_ReadDir f;
            match rd with
            | Err err => mret (Err err)
            | Ok rds =>
                c ← collect rds (make_slice []);
                match c with
                | Err err => mret (Err err)
                | Ok fis =>
                    let '(b, err) := json.Encode marshal (bytes_NewBuffer []) fis in
                    match err with
                    | Some e => mret (Err e)
                    | None => mret (Ok (dir_File {| buffer := b; fileInfo := Some info |}))
                    end
                end
            end
          else mret (Ok (os_File f))
      end
  end.

(** [Put] reads from the provided reader and stores the data with the
    Charm ID and path. *)
Definition Put (lfs : LocalFileStore) (charmID path : string) (r : Reader) (mode : Z)
  : M (option error) :=
  let fp := filepath.Join [Path lfs; charmID; path] in
  if fs.IsDir mode then storage.EnsureDir fp mode
  else
    err ← storage.EnsureDir (filepath.Dir fp) mode;
    match err with
    | Some e => mret (Some e)
    | None =>
        c ← os_Create fp;
        defer (f_Close (value c))
          match c with
          | Err e => mret (Some e)
          | Ok f =>
              w ← io_Copy f r;
              match w.2 with
              | Some e => mret (Some e)
              | None =>
                  if bool_decide (mode ≠ 0%Z) then f_Chmod f mode
                  else mret None
              end
          end
    end.

(** [Delete] deletes the file at the given path for the provided Charm ID. *)
Definition Delete (lfs : LocalFileStore) (charmID path : string) : M (option error) :=
  let fp := filepath.Join [Path lfs; charmID; path] in
  err ← os_RemoveAll fp;
  match err with
  | Some e => mret (Some e)
  | None => mret None
  end.

End Store.

(** Reading a handle to completion, as [io.ReadAll] does, with buffers
    of [n] bytes: [Some] of the bytes when the end is reached within
    [fuel] reads. *)
Fixpoint ReadAll (fuel n : nat) (h : fs_File) : M (fs_File * option (list byte)) :=
  match fuel with
  | O => mret (h, None)
  | S fuel' =>
      r ← File_Read h n;
      match r.2 with
      | Ok chunk =>
          r' ← ReadAll fuel' n r.1;
          mret (r'.1, (λ rest, (chunk ++ rest)%list) <$> r'.2)
      | Err EOF => mret (r.1, Some [])
      | Err _ => mret (r.1, None)
      end
  end.

(** ** Vocabulary of the properties *)

(** A string without separator. *)
Definition no_sep (s : string) : Prop := strings.Split s = [s].

(** A component that [Clean] and the kernel keep. *)
Definition kept (s : string) : Prop := s ≠ EmptyString ∧ s ≠ ".".

(** The components of a path that name entries. *)
Definition names (path : string) : list string :=
  filter (λ s, s ≠ EmptyString ∧ s ≠ ".") (strings.Split path).

(** An identity that is one proper path component: not empty, without
    separator, and neither [.] nor [..]. *)
Definition is_name (s : string) : bool :=
  bool_decide (strings.Split s = [s]) && bool_decide (s ≠ EmptyString)
  && bool_decide (s ≠ ".") && bool_decide (s ≠ "..").

(** A path none of whose components is [..]. *)
Definition no_dotdot (path : string) : bool :=
  bool_decide (Forall (λ s, s ≠ "..") (strings.Split path)).

(** The part of the tree that belongs to an identity. *)
Definition namespace (wd : list string) (lfs : LocalFileStore) (charmID : string)
  : list string :=
  abs_segments wd (Path lfs) ++ [charmID].

(** Two locations that part ways at some component. *)
Definition diverge (p q : list string) : Prop :=
  ∃ c a b p' q', p = c ++ a :: p' ∧ q = c ++ b :: q' ∧ a ≠ b.

(** The listing entry of a child: its name, whether it is a directory,
    and the size, modification time and mode its [stat] reports. *)
Definition entry_info (kv : string * node) : charm.FileInfo :=
  {| charm.Name := kv.1;
     charm.IsDir := is_dir kv.2;
     charm.Size := fs.Size (node_info kv.1 kv.2);
     charm.ModTime := fs.ModTime (node_info kv.1 kv.2);
     charm.Mode := fs.Mode (node_info kv.1 kv.2) |}.

(** The listing of a directory: one entry per immediate child, in
    directory order. *)
Definition listing (es : gmap string node) : list charm.FileInfo :=
  map entry_info (map_to_list es).

(** The descriptor [Get] and [os.Create] are given in state [st]. *)
Definition opened (loc : list string) (name : string) (st : OS) : OS :=
  set_fds (<[fresh_fd (fds st) := {| of_loc := loc; of_name := name; of_off := 0 |}]> (fds st)) st.

(** The mode a file has after [Put] wrote it with [mode]: the requested
    bits when [mode] is not zero; otherwise what [os.Create] left, the
    mode the file had or the default of a new file. *)
Definition mode_after_Put (mode : Z) (before : lookup_result) : Z :=
  if bool_decide (mode ≠ 0%Z) then syscallMode mode
  else match before with
       | Found (File _ m0 _) => m0
       | _ => default_file_mode
       end.

(** The outcomes of [os.RemoveAll]. *)
Inductive removed (path : string) (st : OS) : option error → OS → Prop :=
| removed_empty :
    path = EmptyString → removed path st None st
| removed_dot :
    endsWithDot path = true → removed path st (Some (PathError EINVAL)) st
| removed_absent loc :
    locate (cwd st) path = Some loc → walk loc (root st) = NoEnt →
    removed path st None st
| removed_through_file loc :
    locate (cwd st) path = Some loc → walk loc (root st) = NotDir →
    removed path st (Some (PathError ENOTDIR)) st
| removed_node loc parent base n :
    endsWithDot path = false →
    locate (cwd st) path = Some loc → walk loc (root st) = Found n →
    parent_of loc = Some (parent, base) →
    removed path st None
      (set_root (alter_node (del_child base (clock st)) parent (root st)) st)
| removed_root n r' :
    locate (cwd st) path = Some [] → walk [] (root st) = Found n →
    removed path st (Some (PathError EBUSY)) (set_root r' st).


(** The location a path resolves to is missing: a component of the path
    is not in its directory, which the kernel reports as [ENOENT]; the
    empty path names nothing either. *)
Definition missing (st : OS) (path : string) : Prop :=
  match locate (cwd st) path with
  | Some loc => walk loc (root st) = NoEnt
  | None => True
  end.





(** ** A small store, for examples *)

(** An encoder that writes every entry as an empty object. *)
Definition example_marshal (fi : charm.FileInfo) : option (list byte) :=
  Some [x7b; x7d].

Definition example_store : LocalFileStore := {| Path := "/srv/charm" |}.

(** A machine with an empty file system, at boot. *)
Definition example_boot : OS :=
  {| root := Directory ∅ 493 0; cwd := []; clock := 100; fds := ∅ |}.

(** The bytes of "buy milk". *)
Definition buy_milk : list byte := [x62; x75; x79; x20; x6d; x69; x6c; x6b].

(** The store after identity [abc] wrote [notes/todo.txt] with mode 0644. *)
Definition example_notes : OS :=
  (Put example_store "abc" "notes/todo.txt" (bytes_NewReader buy_milk) 420 example_boot).2.

(** The store after identity [abc] made the directory [inbox] with mode 0755. *)
Definition example_inbox : OS :=
  (Put example_store "abc" "inbox" (bytes_NewReader []) (Z.lor fs.ModeDir 493) example_boot).2.

(** The store after identity [bob] wrote [key] with mode 0600. *)
Definition example_bob : OS :=
  (Put example_store "bob" "key" (bytes_NewReader buy_milk) 384 example_boot).2.


(** ** Tactics *)

(** Unfolding of the monad, for symbolic execution of the calls. *)
Ltac unfold_M :=
  unfold defer, mbind, M_bind, mret, M_ret, get_state, put_state in *.

Ltac run_calls :=
  unfold storage.EnsureDir, os_MkdirAll, os_Create, os_Open, os_Stat, os_RemoveAll,
    io_Copy, f_Write, f_Chmod, f_Close, f_Read, f_ReadDir, f_Stat, alloc_fd in *;
  unfold_M.

#[global] Arguments os_Stat : simpl never.
#[global] Arguments os_Open : simpl never.
#[global] Arguments os_Create : simpl never.
#[global] Arguments os_MkdirAll : simpl never.
#[global] Arguments os_RemoveAll : simpl never.
#[global] Arguments f_Close : simpl never.
#[global] Arguments f_Read : simpl never.
#[global] Arguments f_Write : simpl never.
#[global] Arguments f_Chmod : simpl never.
#[global] Arguments f_Stat : simpl never.
#[global] Arguments f_ReadDir : simpl never.
#[global] Arguments DirEntry_Info : simpl never.
#[global] Arguments io_Copy : simpl never.
#[global] Arguments storage.EnsureDir : simpl never.
#[global] Arguments json.Marshal : simpl never.
#[global] Arguments filepath.Join : simpl never.
#[global] Arguments filepath.Clean : simpl never.
#[global] Arguments filepath.Dir : simpl never.


(** * Properties of the model *)

(** ** Paths, by example *)

Example Clean_ex1 : filepath.Clean "a//b/./c/.." = "a/b".
Proof. reflexivity. Qed.
Example Clean_ex2 : filepath.Clean "/../a/../.." = "/".
Proof. reflexivity. Qed.
Example Clean_ex3 : filepath.Clean "../a/../../b" = "../../b".
Proof. reflexivity. Qed.
Example Join_ex1 : filepath.Join ["/srv/charm"; "abc"; "notes/todo.txt"] = "/srv/charm/abc/notes/todo.txt".
Proof. reflexivity. Qed.
Example Join_ex2 : filepath.Join [EmptyString; "abc"; EmptyString] = "abc".
Proof. reflexivity. Qed.
Example Dir_ex1 : filepath.Dir "/srv/charm/abc/notes/todo.txt" = "/srv/charm/abc/notes".
Proof. reflexivity. Qed.
Example Dir_ex2 : filepath.Dir "todo.txt" = ".".
Proof. reflexivity. Qed.


(** ** The directory tree *)

Lemma walk_app (p q : list string) (n : node) :
  walk (p ++ q) n = match walk p n with
                    | Found x => walk q x
                    | r => r
                    end.
Proof.
  revert n. induction p as [|s p IH]; intros n; simpl; [done|].
  destruct n as [d m t|es m t]; [done|].
  destruct (es !! s); [apply IH|done].
Qed.

Lemma walk_alter_node (f : node → node) (p q : list string) (n x : node) :
  walk p n = Found x →
  walk (p ++ q) (alter_node f p n) = walk q (f x).
Proof.
  revert n. induction p as [|s p IH]; intros n; simpl.
  - by intros [= ->].
  - destruct n as [d m t|es m t]; [done|].
    destruct (es !! s) as [c|] eqn:Hs; [|done].
    intros Hw. rewrite lookup_alter_eq, Hs. simpl. by apply IH.
Qed.

Lemma walk_alter_node_same (f : node → node) (p : list string) (n x : node) :
  walk p n = Found x → walk p (alter_node f p n) = Found (f x).
Proof.
  intros Hw. rewrite <-(app_nil_r p) at 1. by rewrite (walk_alter_node f p [] n x).
Qed.

Lemma parent_of_app (loc parent : list string) (base : string) :
  parent_of loc = Some (parent, base) → loc = parent ++ [base].
Proof.
  unfold parent_of. destruct (rev loc) as [|b front] eqn:Hr; [done|].
  intros [= <- <-]. rewrite <-(rev_involutive loc), Hr. done.
Qed.

Lemma parent_of_None (loc : list string) : parent_of loc = None → loc = [].
Proof.
  unfold parent_of. destruct (rev loc) eqn:Hr; [|done].
  intros _. rewrite <-(rev_involutive loc), Hr. done.
Qed.


(** A directory that is there already is left alone by [mkdir_all]. *)
Lemma mkdir_all_existing (perm now : Z) (loc : list string) (n : node) es m t :
  walk loc n = Found (Directory es m t) →
  mkdir_all perm now loc n = Some n.
Proof.
  revert n. induction loc as [|s loc IH]; intros n; simpl.
  - by intros [= ->].
  - destruct n as [d m' t'|es' m' t']; [done|].
    destruct (es' !! s) as [c|] eqn:Hs; [|done].
    intros Hw. rewrite (IH _ Hw). by rewrite insert_id.
Qed.

(** After a successful [mkdir_all] the target is a directory: the one
    that was there, or a new empty one with the requested bits. *)
Lemma mkdir_all_target (perm now : Z) (loc : list string) (n n' : node) :
  mkdir_all perm now loc n = Some n' →
  walk loc n' = Found (match walk loc n with
                       | Found d => d
                       | _ => Directory ∅ perm now
                       end).
Proof.
  revert n n'. induction loc as [|s loc IH]; intros n n'; simpl.
  - destruct n; [done|]. by intros [= <-].
  - destruct n as [d m t|es m t]; [done|].
    destruct (es !! s) as [c|] eqn:Hs.
    + destruct (mkdir_all perm now loc c) as [c'|] eqn:Hc; [|done].
      intros [= <-]. simpl. rewrite lookup_insert_eq. by apply IH.
    + destruct (mkdir_all perm now loc (Directory ∅ perm now)) as [c'|] eqn:Hc; [|done].
      intros [= <-]. simpl. rewrite lookup_insert_eq.
      rewrite (IH _ _ Hc). destruct loc; simpl; [done|].
      by rewrite lookup_empty.
Qed.

(** Every directory on the way is there afterwards; one that existed
    keeps its mode and time, one that was missing has the requested bits. *)
Lemma mkdir_all_prefix (perm now : Z) (p q : list string) (n n' : node) :
  mkdir_all perm now (p ++ q) n = Some n' →
  ∃ es m t, walk p n' = Found (Directory es m t) ∧
    match walk p n with
    | Found (Directory _ m0 t0) => m = m0 ∧ (q = [] → t = t0)
    | Found (File _ _ _) => False
    | NoEnt => m = perm
    | NotDir => False
    end.
Proof.
  revert n n'. induction p as [|s p IH]; intros n n'.
  - simpl. destruct n as [d m t|es m t]; [by destruct q|].
    destruct q as [|s q]; simpl.
    + intros [= <-]. by exists es, m, t.
    + destruct (es !! s) as [c|].
      * destruct (mkdir_all perm now q c); [|done]. intros [= <-]. eauto 10.
      * destruct (mkdir_all perm now q _); [|done]. intros [= <-].
        eexists _, _, _. split; [done|]. split; [done|]. done.
  - simpl. destruct n as [d m t|es m t]; [done|].
    destruct (es !! s) as [c|] eqn:Hs.
    + destruct (mkdir_all perm now (p ++ q) c) as [c'|] eqn:Hc; [|done].
      intros [= <-]. simpl. rewrite lookup_insert_eq. by apply IH.
    + destruct (mkdir_all perm now (p ++ q) (Directory ∅ perm now)) as [c'|] eqn:Hc; [|done].
      intros [= <-]. simpl. rewrite lookup_insert_eq.
      destruct (IH _ _ Hc) as (es' & m' & t' & Hw & Hm).
      exists es', m', t'. split; [done|].
      destruct p; simpl in Hm; [by destruct Hm|].
      by rewrite lookup_empty in Hm.
Qed.




Lemma mkdir_all_file (perm now : Z) (loc q : list string) (n n' : node) d m t :
  mkdir_all perm now loc n = Some n' →
  walk q n' = Found (File d m t) ↔ walk q n = Found (File d m t).
Proof.
  revert n n' q. induction loc as [|s loc IH]; intros n n' q; simpl.
  - destruct n; [done|]. by intros [= <-].
  - destruct n as [d0 m0 t0|es m0 t0]; [done|].
    destruct (es !! s) as [c|] eqn:Hs.
    + destruct (mkdir_all perm now loc c) as [c'|] eqn:Hc; [|done].
      intros [= <-]. destruct q as [|s' q]; simpl; [done|].
      destruct (decide (s = s')) as [<-|Hne].
      * rewrite lookup_insert_eq, Hs. by apply IH.
      * by rewrite lookup_insert_ne.
    + destruct (mkdir_all perm now loc (Directory ∅ perm now)) as [c'|] eqn:Hc; [|done].
      intros [= <-]. destruct q as [|s' q]; simpl; [done|].
      destruct (decide (s = s')) as [<-|Hne].
      * rewrite lookup_insert_eq, Hs. rewrite (IH _ _ q Hc).
        destruct q; simpl; [done|]. by rewrite lookup_empty.
      * by rewrite lookup_insert_ne.
Qed.

(** ** Descriptors and contents *)

Lemma fresh_fd_None (t : gmap nat openfile) : t !! fresh_fd t = None.
Proof. unfold fresh_fd. apply (not_elem_of_dom (D:=gset nat)), is_fresh. Qed.

Lemma write_at_start (b : list byte) : write_at 0 b [] = b.
Proof. unfold write_at. simpl. rewrite drop_nil. apply app_nil_r. Qed.



(** ** The system calls, one by one *)




Lemma EnsureDir_ok path mode st st' :
  storage.EnsureDir path mode st = (None, st') →
  ∃ loc r', locate (cwd st) path = Some loc ∧
    mkdir_all (fs.Perm mode) (clock st) loc (root st) = Some r' ∧
    st' = set_root r' st.
Proof.
  run_calls. destruct (locate (cwd st) path) as [loc|]; [|done].
  destruct (mkdir_all _ _ loc (root st)) as [r'|] eqn:Hm; [|done].
  intros [= <-]. eauto.
Qed.

Lemma EnsureDir_err path mode st e st' :
  storage.EnsureDir path mode st = (Some e, st') →
  st' = st ∧ (e = PathError ENOENT ∨ e = PathError ENOTDIR).
Proof.
  run_calls. destruct (locate (cwd st) path) as [loc|]; [|intros [= <- <-]; eauto].
  destruct (mkdir_all _ _ loc (root st)) as [r'|] eqn:Hm; [done|].
  intros [= <- <-]. eauto.
Qed.

Lemma os_Create_ok name st fd st' :
  os_Create name st = (Ok fd, st') →
  ∃ loc m r', locate (cwd st) name = Some loc ∧
    fd = fresh_fd (fds st) ∧
    st' = set_fds (<[fd := {| of_loc := loc; of_name := filepath.basename name; of_off := 0 |}]>
                     (fds st)) (set_root r' st) ∧
    walk loc r' = Found (File [] m (clock st)) ∧
    m = match walk loc (root st) with
        | Found (File _ m0 _) => m0
        | _ => default_file_mode
        end.
Proof.
  run_calls. destruct (locate (cwd st) name) as [loc|]; [|done].
  destruct (walk loc (root st)) as [[d m t|es m t]| |] eqn:Hw; try done.
  - intros [= <- <-]. eexists loc, m, _. repeat split; try done; [|by rewrite Hw].
    by rewrite (walk_alter_node_same _ _ _ _ Hw).
  - destruct (parent_of loc) as [[parent base]|] eqn:Hp; [|done].
    destruct (walk parent (root st)) as [[d m t|es m t]| |] eqn:Hwp; try done.
    intros [= <- <-]. eexists loc, _, _. repeat split; try done; rewrite ?Hw; try done.
    rewrite (parent_of_app _ _ _ Hp).
    rewrite (walk_alter_node _ _ _ _ _ Hwp). simpl. by rewrite lookup_insert_eq.
Qed.

Lemma os_Create_err name st e st' :
  os_Create name st = (Err e, st') → st' = st.
Proof.
  run_calls. destruct (locate (cwd st) name) as [loc|]; [|by intros [= <- <-]].
  destruct (walk loc (root st)) as [[d m t|es m t]| |] eqn:Hw; try (by intros [= <- <-]); try done.
  destruct (parent_of loc) as [[parent base]|] eqn:Hp; [|by intros [= <- <-]].
  destruct (walk parent (root st)) as [[d m t|es m t]| |] eqn:Hwp; try (by intros [= <- <-]); done.
Qed.

Lemma io_Copy_file fd src st o d m t :
  fds st !! fd = Some o →
  walk (of_loc o) (root st) = Found (File d m t) →
  io_Copy fd src st =
    ((length (rd_data src), rd_err src),
     set_fds (<[fd := {| of_loc := of_loc o; of_name := of_name o;
                         of_off := of_off o + length (rd_data src) |}]> (fds st))
       (set_root (alter_node (λ _, File (write_at (of_off o) (rd_data src) d) m (clock st))
                    (of_loc o) (root st)) st)).
Proof. intros Hfd Hw. run_calls. by rewrite Hfd, Hw. Qed.

Lemma f_Chmod_found fd mode st o n :
  fds st !! fd = Some o →
  walk (of_loc o) (root st) = Found n →
  f_Chmod fd mode st =
    (None, set_root (alter_node (set_mode (syscallMode mode)) (of_loc o) (root st)) st).
Proof. intros Hfd Hw. run_calls. by rewrite Hfd, Hw. Qed.

Lemma f_Close_open fd st o :
  fds st !! fd = Some o →
  f_Close (Some fd) st = (None, set_fds (delete fd (fds st)) st).
Proof. intros Hfd. run_calls. by rewrite Hfd. Qed.

Lemma IsDir_file_mode (m : Z) : fs.IsDir (syscallMode m) = false.
Proof.
  unfold fs.IsDir, syscallMode. rewrite <-Z.land_assoc.
  assert (Z.land (Z.lor fs.ModePerm (Z.lor fs.ModeSetuid (Z.lor fs.ModeSetgid fs.ModeSticky)))
            fs.ModeDir = 0%Z) as -> by reflexivity.
  by rewrite Z.land_0_r.
Qed.

Lemma IsDir_dir_mode (m : Z) : fs.IsDir (Z.lor m fs.ModeDir) = true.
Proof.
  unfold fs.IsDir. rewrite Z.land_lor_distr_l, Z.land_diag.
  destruct (Z.eqb_spec (Z.lor (Z.land m fs.ModeDir) fs.ModeDir) 0) as [H0|]; [|done].
  apply Z.lor_eq_0_iff in H0 as [_ H0]. done.
Qed.

Lemma take_drop_chunk {A} (n : nat) (x : list A) :
  take n x ++ drop (length (take n x)) x = x.
Proof.
  rewrite length_take. destruct (Nat.le_gt_cases n (length x)).
  - rewrite Nat.min_l by done. apply take_drop.
  - rewrite Nat.min_r by lia. rewrite take_ge, drop_all by lia. apply app_nil_r.
Qed.

(** Reading an open regular file to its end yields what is left of its
    content, and leaves the descriptor open. *)
Lemma ReadAll_os_File (fuel n fd : nat) (st : OS) (o : openfile) d m t :
  fds st !! fd = Some o →
  walk (of_loc o) (root st) = Found (File d m t) →
  0 < n →
  length d - of_off o < fuel →
  ∃ st', ReadAll fuel n (os_File fd) st = ((os_File fd, Some (drop (of_off o) d)), st') ∧
    root st' = root st ∧ cwd st' = cwd st ∧ clock st' = clock st ∧
    is_Some (fds st' !! fd).
Proof.
  revert st o. induction fuel as [|fuel IH]; intros st o Hfd Hw Hn Hlen; [lia|].
  simpl. unfold File_Read, f_Read. unfold_M. rewrite Hfd, Hw.
  destruct n as [|n']; [lia|].
  destruct (take (S n') (drop (of_off o) d)) as [|b chunk] eqn:Hc.
  - simpl. exists st. repeat split; eauto.
    destruct (drop (of_off o) d); [done|done].
  - simpl.
    set (o' := {| of_loc := of_loc o; of_name := of_name o;
                  of_off := of_off o + S (length chunk) |}).
    set (st1 := set_fds (<[fd := o']> (fds st)) st).
    assert (length (b :: chunk) ≤ length d - of_off o)%nat as Hle.
    { rewrite <-Hc, length_take, length_drop. lia. }
    simpl in Hle.
    destruct (IH st1 o') as (st' & HR & Hr & Hcwd & Hck & Hopen).
    { simpl. by rewrite lookup_insert_eq. }
    { done. }
    { done. }
    { simpl. lia. }
    rewrite HR. simpl. exists st'. repeat split; try done.
    f_equal. f_equal. f_equal.
    change (of_off o + S (length chunk)) with (of_off o + length (b :: chunk)).
    rewrite <-Hc, <-drop_drop.
    change (b :: chunk ++ ?x) with ((b :: chunk) ++ x). rewrite <-Hc.
    apply take_drop_chunk.
Qed.

(** Reading a [DirFile] to its end yields the unread part of its buffer. *)
Lemma ReadAll_dir_File (fuel n : nat) (df : DirFile) (st : OS) :
  0 < n →
  length (buf (buffer df)) - off (buffer df) < fuel →
  ∃ df', ReadAll fuel n (dir_File df) st =
           ((dir_File df', Some (drop (off (buffer df)) (buf (buffer df)))), st).
Proof.
  revert df. induction fuel as [|fuel IH]; intros df Hn Hlen; [lia|].
  simpl. unfold File_Read, DirFile_Read, Buffer_Read. unfold_M.
  destruct n as [|n']; [lia|].
  destruct (drop (off (buffer df)) (buf (buffer df))) as [|b rest] eqn:Hd.
  - simpl. eauto.
  - simpl.
    set (df1 := {| buffer := {| buf := buf (buffer df);
                                off := off (buffer df) + S (length (take n' rest)) |};
                   fileInfo := fileInfo df |}).
    assert (length (b :: rest) = length (buf (buffer df)) - off (buffer df)) as Hl.
    { by rewrite <-Hd, length_drop. }
    simpl in Hl.
    destruct (IH df1) as (df' & HR).
    { done. }
    { simpl. lia. }
    rewrite HR. simpl. exists df'. do 3 f_equal.
    rewrite <-drop_drop, Hd. simpl. f_equal. apply take_drop_chunk.
Qed.


(** ** [Get], case by case *)







Section GetFacts.

Variable marshal : charm.FileInfo → option (list byte).

Lemma collect_run (dir : list string) (st : OS) (l : list (string * node))
    (acc : list charm.FileInfo) :
  (∀ kv, kv ∈ l → walk (dir ++ [kv.1]) (root st) = Found kv.2) →
  collect (map (to_entry dir) l) (make_slice acc) st
  = (Ok (make_slice (acc ++ map entry_info l)), st).
Proof.
  revert acc. induction l as [|kv l IH]; intros acc Hl; simpl.
  - by rewrite app_nil_r.
  - unfold DirEntry_Info. unfold_M. simpl.
    rewrite (Hl kv) by apply list_elem_of_here.
    rewrite IH.
    + by rewrite <-app_assoc.
    + intros kv' Hin. apply Hl. by apply list_elem_of_further.
Qed.

Lemma Get_absent lfs charmID path st :
  missing st (filepath.Join [Path lfs; charmID; path]) →
  Get marshal lfs charmID path st = (Err ErrNotExist, st).
Proof.
  unfold missing, Get, os_Stat. unfold_M.
  destruct (locate _ _) as [loc|]; [|done]. by intros ->.
Qed.

Lemma Get_through_file lfs charmID path st loc :
  locate (cwd st) (filepath.Join [Path lfs; charmID; path]) = Some loc →
  walk loc (root st) = NotDir →
  Get marshal lfs charmID path st = (Err (PathError ENOTDIR), st).
Proof. unfold Get, os_Stat. unfold_M. by intros -> ->. Qed.

Lemma Get_file lfs charmID path st loc d m t :
  let fp := filepath.Join [Path lfs; charmID; path] in
  locate (cwd st) fp = Some loc →
  walk loc (root st) = Found (File d m t) →
  Get marshal lfs charmID path st
  = (Ok (os_File (fresh_fd (fds st))), opened loc (filepath.basename fp) st).
Proof.
  intros fp Hloc Hw. unfold Get, os_Stat, os_Open, alloc_fd. unfold_M. fold fp.
  rewrite Hloc, Hw. simpl. rewrite Hloc, Hw. by rewrite IsDir_file_mode.
Qed.

Lemma Get_dir lfs charmID path st loc es m t :
  let fp := filepath.Join [Path lfs; charmID; path] in
  locate (cwd st) fp = Some loc →
  walk loc (root st) = Found (Directory es m t) →
  Get marshal lfs charmID path st
  = (match json.Marshal marshal (make_slice (listing es)) with
     | Ok doc =>
         Ok (dir_File {| buffer := bytes_NewBuffer (doc ++ [x0a]);
                         fileInfo := Some (node_info (filepath.basename fp)
                                             (Directory es m t)) |})
     | Err e => Err e
     end,
     opened loc (filepath.basename fp) st).
Proof.
  intros fp Hloc Hw. unfold Get, os_Stat, os_Open, alloc_fd, f_ReadDir. unfold_M. fold fp.
  rewrite Hloc, Hw. simpl. rewrite Hloc, Hw. rewrite IsDir_dir_mode.
  simpl. rewrite lookup_insert_eq. simpl. rewrite Hw.
  rewrite (collect_run loc _ (map_to_list es) []).
  - simpl. unfold json.Encode. fold (listing es).
    by destruct (json.Marshal marshal (make_slice (listing es))).
  - intros [k c] Hin%elem_of_map_to_list. simpl.
    rewrite walk_app, Hw. simpl. by rewrite Hin.
Qed.

End GetFacts.


Lemma delete_fresh_fd (t : gmap nat openfile) (o o' : openfile) :
  delete (fresh_fd t) (<[fresh_fd t := o']> (<[fresh_fd t := o]> t)) = t.
Proof.
  rewrite delete_insert_eq, delete_insert_eq. apply delete_id, fresh_fd_None.
Qed.




(** A [Put] of a file that reports no error. *)
Lemma Put_file_ok lfs charmID path r mode st st' :
  fs.IsDir mode = false →
  Put lfs charmID path r mode st = (None, st') →
  ∃ loc r',
    locate (cwd st) (filepath.Join [Path lfs; charmID; path]) = Some loc ∧
    st' = set_root r' st ∧
    rd_err r = None ∧
    walk loc r' = Found (File (rd_data r) (mode_after_Put mode (walk loc (root st))) (clock st)).
Proof.
  intros Hmode. unfold Put. rewrite Hmode.
  set (fp := filepath.Join [Path lfs; charmID; path]).
  unfold_M.
  destruct (storage.EnsureDir (filepath.Dir fp) mode st) as [[e|] st1] eqn:HE; [done|].
  apply EnsureDir_ok in HE as (ploc & r1 & Hploc & Hmk & ->).
  destruct (os_Create fp (set_root r1 st)) as [[fd|e] st2] eqn:HC.
  2:{ by simpl. }
  apply os_Create_ok in HC as (loc & m & r2 & Hloc & Hfd & -> & Hw2 & Hm).
  simpl in Hloc, Hfd, Hm. simpl value.
  set (o := {| of_loc := loc; of_name := filepath.basename fp; of_off := 0 |}) in *.
  erewrite (io_Copy_file fd r _ o); [|by simpl; rewrite lookup_insert_eq|by simpl; apply Hw2].
  simpl. rewrite write_at_start.
  set (r3 := alter_node _ loc r2).
  assert (walk loc r3 = Found (File (rd_data r) m (clock st))) as Hw3.
  { unfold r3. by rewrite (walk_alter_node_same _ _ _ _ Hw2). }
  assert (m = match walk loc (root st) with
              | Found (File _ m0 _) => m0
              | _ => default_file_mode
              end) as Hm'.
  { rewrite Hm. destruct (walk loc (root st)) as [[d0 m0 t0|es0 m0 t0]| |] eqn:Hw0.
    - apply (mkdir_all_file _ _ _ loc _ _ d0 m0 t0) in Hmk. apply Hmk in Hw0. by rewrite Hw0.
    - destruct (walk loc r1) as [[d1 m1 t1|]| |] eqn:Hw1; try done.
      apply (mkdir_all_file _ _ _ loc _ _ d1 m1 t1) in Hmk. apply Hmk in Hw1. congruence.
    - destruct (walk loc r1) as [[d1 m1 t1|]| |] eqn:Hw1; try done.
      apply (mkdir_all_file _ _ _ loc _ _ d1 m1 t1) in Hmk. apply Hmk in Hw1. congruence.
    - destruct (walk loc r1) as [[d1 m1 t1|]| |] eqn:Hw1; try done.
      apply (mkdir_all_file _ _ _ loc _ _ d1 m1 t1) in Hmk. apply Hmk in Hw1. congruence. }
  destruct (rd_err r) as [e|] eqn:Hr.
  { simpl. by destruct (f_Close (Some fd) _). }
  unfold mode_after_Put. case_bool_decide as Hz.
  - erewrite (f_Chmod_found fd mode _ _ _); [|by simpl; rewrite lookup_insert_eq|by simpl; apply Hw3].
    erewrite f_Close_open; [|by simpl; rewrite lookup_insert_eq].
    intros [= <-]. simpl. exists loc, (alter_node (set_mode (syscallMode mode)) loc r3).
    split; [done|]. split.
    { unfold set_fds, set_root; simpl. f_equal. rewrite Hfd. apply delete_fresh_fd. }
    split; [done|]. by rewrite (walk_alter_node_same _ _ _ _ Hw3).
  - erewrite f_Close_open; [|by simpl; rewrite lookup_insert_eq].
    intros [= <-]. simpl. exists loc, r3.
    split; [done|]. split.
    { unfold set_fds, set_root; simpl. f_equal. rewrite Hfd. apply delete_fresh_fd. }
    split; [done|]. by rewrite Hw3, Hm'.
Qed.


(** ** Paths *)

Lemma Split_nonempty (s : string) : strings.Split s ≠ [].
Proof.
  destruct s as [|c s]; simpl; [done|].
  destruct (Ascii.eqb c "/"); [done|]. by destruct (strings.Split s).
Qed.

Lemma Split_app (a b : string) :
  strings.Split (a +:+ String "/" b) = strings.Split a ++ strings.Split b.
Proof.
  induction a as [|c a IH]; simpl; [done|].
  destruct (Ascii.eqb c "/"); [by rewrite IH|].
  rewrite IH. pose proof (Split_nonempty a). by destruct (strings.Split a).
Qed.



Lemma Split_no_sep (s : string) : Forall no_sep (strings.Split s).
Proof.
  induction s as [|c s IH]; simpl.
  - by constructor.
  - destruct (Ascii.eqb c "/") eqn:Hc; [by constructor|].
    pose proof (Split_nonempty s).
    destruct (strings.Split s) as [|seg segs]; [done|].
    inversion IH as [|? ? Hseg Hsegs]; subst. constructor; [|done].
    unfold no_sep in *. simpl. by rewrite Hc, Hseg.
Qed.

Lemma Split_Join (segs : list string) :
  Forall no_sep segs → segs ≠ [] → strings.Split (strings.Join segs) = segs.
Proof.
  induction segs as [|e segs IH]; [done|].
  intros Hall _. inversion Hall as [|? ? He Hsegs]; subst.
  destruct segs as [|e' segs]; [done|].
  change (strings.Join (e :: e' :: segs)) with (e +:+ String "/" (strings.Join (e' :: segs))).
  rewrite Split_app, He, IH by done. done.
Qed.

Lemma rooted_app (s rest : string) :
  s ≠ EmptyString → filepath.rooted (s +:+ rest) = filepath.rooted s.
Proof. by destruct s. Qed.

Lemma no_sep_rooted (s : string) :
  no_sep s → s ≠ EmptyString → filepath.rooted s = false.
Proof.
  unfold no_sep. destruct s as [|c s]; [done|]. simpl.
  destruct (Ascii.eqb c "/"); [by intros ?|done].
Qed.

Lemma rooted_Join (e : string) (es : list string) :
  no_sep e → e ≠ EmptyString → filepath.rooted (strings.Join (e :: es)) = false.
Proof.
  intros Hs He. destruct es as [|e' es]; simpl; [by apply no_sep_rooted|].
  rewrite rooted_app by done. by apply no_sep_rooted.
Qed.



Lemma walk_step_kept (at_ : list string) (s : string) :
  kept s → s ≠ ".." → walk_step at_ s = s :: at_.
Proof.
  intros [H1 H2] H3. unfold walk_step.
  rewrite !bool_decide_eq_false_2 by done. done.
Qed.

Lemma kept_dotdot : kept "..".
Proof. by split. Qed.

(** One step of [Clean] resolves as the component it consumed. *)
Lemma clean_step_resolve (r : bool) (base acc : list string) (seg : string) :
  (r = true → base = []) →
  Forall kept acc →
  fold_left walk_step (rev (filepath.clean_step r acc seg)) base
  = walk_step (fold_left walk_step (rev acc) base) seg
  ∧ Forall kept (filepath.clean_step r acc seg).
Proof.
  intros Hr Hacc. unfold filepath.clean_step.
  destruct (bool_decide (seg = EmptyString) || bool_decide (seg = ".")) eqn:Hb.
  { split; [|done]. unfold walk_step. by rewrite Hb. }
  apply orb_false_iff in Hb as [H1%bool_decide_eq_false H2%bool_decide_eq_false].
  case_bool_decide as Hdd.
  - subst seg. destruct acc as [|top acc].
    + destruct r; simpl.
      * rewrite Hr by done. by split.
      * split; [done|]. by repeat constructor; try apply kept_dotdot.
    + inversion Hacc as [|? ? Hk Hacc']; subst. case_bool_decide as Htop.
      * split; [|by constructor; [apply kept_dotdot|]]. simpl. by rewrite !fold_left_app.
      * split; [|done]. simpl. rewrite fold_left_app. simpl.
        by rewrite (walk_step_kept _ top).
  - split; [|by constructor]. simpl. rewrite fold_left_app. simpl.
    by rewrite (walk_step_kept _ seg).
Qed.

(** What [Clean] keeps resolves as the path it was given. *)
Lemma clean_steps_resolve (r : bool) (base : list string) (segs acc : list string) :
  (r = true → base = []) →
  Forall kept acc →
  fold_left walk_step (rev (fold_left (filepath.clean_step r) segs acc)) base
  = fold_left walk_step segs (fold_left walk_step (rev acc) base)
  ∧ Forall kept (fold_left (filepath.clean_step r) segs acc).
Proof.
  intros Hr. revert acc. induction segs as [|seg segs IH]; intros acc Hacc; simpl; [done|].
  destruct (clean_step_resolve r base acc seg Hr Hacc) as [Heq Hk].
  destruct (IH _ Hk) as [IH1 IH2]. split; [|done]. by rewrite IH1, Heq.
Qed.

Lemma clean_steps_no_sep (r : bool) (segs acc : list string) :
  Forall no_sep segs → Forall no_sep acc →
  Forall no_sep (fold_left (filepath.clean_step r) segs acc).
Proof.
  revert acc. induction segs as [|seg segs IH]; intros acc Hs Hacc; simpl; [done|].
  inversion Hs as [|? ? Hseg Hsegs]; subst. apply IH; [done|].
  unfold filepath.clean_step.
  destruct (bool_decide (seg = EmptyString) || bool_decide (seg = ".")); [done|].
  case_bool_decide; [|by constructor].
  destruct acc as [|top acc']; [destruct r; [done|by constructor]|].
  case_bool_decide; [by constructor|by inversion Hacc].
Qed.

(** [Clean] keeps the location a path names. *)
Lemma abs_segments_Clean (wd : list string) (path : string) :
  path ≠ EmptyString →
  filepath.Clean path ≠ EmptyString
  ∧ abs_segments wd (filepath.Clean path) = abs_segments wd path.
Proof.
  intros Hne. unfold filepath.Clean. rewrite bool_decide_eq_false_2 by done.
  set (r := filepath.rooted path).
  set (base := if r then [] else rev wd).
  destruct (clean_steps_resolve r base (strings.Split path) []) as [Hres Hkept];
    [by intros Hr; unfold base; rewrite Hr|done|].
  pose proof (clean_steps_no_sep r (strings.Split path) []
                (Split_no_sep path) (Forall_nil_2 _)) as Hsep.
  set (out := fold_left (filepath.clean_step r) (strings.Split path) []) in *.
  simpl in Hres. unfold abs_segments. fold r. fold base.
  apply Forall_rev in Hkept, Hsep.
  destruct r eqn:Hr.
  - split; [done|].
    change (strings.Split ("/" +:+ ?x)) with (EmptyString :: strings.Split x).
    change (filepath.rooted ("/" +:+ strings.Join (rev out))) with true.
    f_equal. rewrite <-Hres. simpl.
    destruct (rev out) as [|e es] eqn:Ho; [done|]. by rewrite Split_Join.
  - destruct (rev out) as [|e es] eqn:Ho.
    + split; [done|]. f_equal. by rewrite <-Hres.
    + inversion Hkept as [|? ? [He _] _]; inversion Hsep as [|? ? Hse _]; subst.
      split.
      * destruct es; simpl; [done|]. by destruct e.
      * rewrite rooted_Join, Split_Join by done. f_equal. by rewrite <-Hres.
Qed.







Lemma fold_walk_step_no_dotdot (segs base : list string) :
  Forall (λ s, s ≠ "..") segs →
  fold_left walk_step segs base
  = rev (filter (λ s, s ≠ EmptyString ∧ s ≠ ".") segs) ++ base.
Proof.
  revert base. induction segs as [|s segs IH]; intros base Hd; simpl; [done|].
  inversion Hd; subst. rewrite IH by done.
  destruct (decide (s ≠ EmptyString ∧ s ≠ ".")) as [Hk|Hk].
  - rewrite filter_cons_True by done. rewrite walk_step_kept by done.
    simpl. by rewrite <-app_assoc.
  - rewrite filter_cons_False by done. unfold walk_step.
    destruct (bool_decide (s = EmptyString) || bool_decide (s = ".")) eqn:Hb; [done|].
    apply orb_false_iff in Hb as [Hx%bool_decide_eq_false Hy%bool_decide_eq_false].
    by destruct Hk.
Qed.

(** Where [Get], [Put] and [Delete] look: the store root, then the
    identity, then the components of the path, provided the identity is
    one proper component and the path has no [..]. *)
Lemma locate_Join (wd : list string) (root_path charmID path : string) :
  is_name charmID = true →
  no_dotdot path = true →
  locate wd (filepath.Join [root_path; charmID; path])
  = Some (abs_segments wd root_path ++ charmID :: names path).
Proof.
  unfold is_name, no_dotdot. rewrite !andb_true_iff, !bool_decide_eq_true.
  intros [[[Hsep Hne] Hdot] Hdd] Hp.
  assert (walk_step_id : ∀ at_, walk_step at_ charmID = charmID :: at_).
  { intros at_. by apply walk_step_kept. }
  unfold filepath.Join. rewrite (bool_decide_eq_false_2 (charmID = EmptyString)) by done.
  case_bool_decide as Hroot.
  - subst root_path.
    change (strings.Join [charmID; path]) with (charmID +:+ String "/" path).
    destruct (abs_segments_Clean wd (charmID +:+ String "/" path)) as [Hc Ha];
      [by destruct charmID|].
    unfold locate. rewrite bool_decide_eq_false_2 by done. rewrite Ha. f_equal.
    unfold abs_segments. rewrite rooted_app, (no_sep_rooted charmID) by done.
    rewrite Split_app, Hsep. simpl. rewrite walk_step_id.
    rewrite fold_walk_step_no_dotdot by done.
    rewrite rev_app_distr, rev_involutive. simpl.
    change (walk_step (rev wd) EmptyString) with (rev wd).
    by rewrite rev_involutive, <-app_assoc.
  - change (strings.Join [root_path; charmID; path])
      with (root_path +:+ String "/" (charmID +:+ String "/" path)).
    destruct (abs_segments_Clean wd (root_path +:+ String "/" (charmID +:+ String "/" path)))
      as [Hc Ha]; [by destruct root_path|].
    unfold locate. rewrite bool_decide_eq_false_2 by done. rewrite Ha. f_equal.
    unfold abs_segments. rewrite rooted_app by done.
    rewrite !Split_app, Hsep, !fold_left_app. simpl. rewrite walk_step_id.
    rewrite fold_walk_step_no_dotdot by done.
    rewrite rev_app_distr, rev_involutive. simpl. by rewrite <-app_assoc.
Qed.





Lemma locate_dot (wd : list string) : locate wd "." = Some wd.
Proof.
  unfold locate, abs_segments. simpl.
  change (walk_step (rev wd) ".") with (rev wd). by rewrite rev_involutive.
Qed.

(** ** [Delete], case by case *)

Lemma Delete_RemoveAll lfs charmID path st :
  Delete lfs charmID path st = os_RemoveAll (filepath.Join [Path lfs; charmID; path]) st.
Proof.
  unfold Delete. unfold_M. destruct (os_RemoveAll _ st) as [[e|] st']; done.
Qed.



Lemma os_RemoveAll_cases path st :
  removed path st (os_RemoveAll path st).1 (os_RemoveAll path st).2.
Proof.
  unfold os_RemoveAll. case_bool_decide as He; [by constructor|].
  destruct (endsWithDot path) eqn:Hd; [by constructor|].
  unfold_M. destruct (locate (cwd st) path) as [loc|] eqn:Hloc.
  2:{ unfold locate in Hloc. by rewrite bool_decide_eq_false_2 in Hloc. }
  destruct (walk loc (root st)) as [n| |] eqn:Hw.
  - destruct (parent_of loc) as [[parent base]|] eqn:Hp; simpl.
    + by eapply removed_node.
    + apply parent_of_None in Hp as ->. by eapply removed_root.
  - by eapply removed_absent.
  - by eapply removed_through_file.
Qed.


(** ** Changes stay where they are made *)



Lemma walk_alter_node_diverge (f : node → node) (p q : list string) (n : node) :
  diverge p q → walk q (alter_node f p n) = walk q n.
Proof.
  intros (c & a & b & p' & q' & -> & -> & Hab). revert n.
  induction c as [|s c IH]; intros n; simpl.
  - destruct n as [|es m t]; [done|]. by rewrite lookup_alter_ne.
  - destruct n as [|es m t]; [done|]. rewrite lookup_alter_eq.
    destruct (es !! s); simpl; [apply IH|done].
Qed.

(** A change of the directory at [c] that leaves its entry [b] alone. *)
Lemma walk_alter_node_sibling (g : node → node) (c : list string) (b : string)
    (q : list string) (n : node) :
  (∀ d, walk (b :: q) (g d) = walk (b :: q) d) →
  walk (c ++ b :: q) (alter_node g c n) = walk (c ++ b :: q) n.
Proof.
  intros Hg. revert n. induction c as [|s c IH]; intros n.
  - apply Hg.
  - simpl. destruct n as [|es m t]; [done|]. rewrite lookup_alter_eq.
    destruct (es !! s); simpl; [apply IH|done].
Qed.

Lemma walk_add_child_ne (a b : string) (x : node) (now : Z) (q : list string) (d : node) :
  a ≠ b → walk (b :: q) (add_child a x now d) = walk (b :: q) d.
Proof. intros Hab. destruct d; simpl; [done|]. by rewrite lookup_insert_ne. Qed.

Lemma walk_del_child_ne (a b : string) (now : Z) (q : list string) (d : node) :
  a ≠ b → walk (b :: q) (del_child a now d) = walk (b :: q) d.
Proof. intros Hab. destruct d; simpl; [done|]. by rewrite lookup_delete_ne. Qed.

(** A change of the entry [a] of the directory at [c], seen from a
    location that parts ways with [c ++ [a]]. *)
Lemma walk_alter_child_diverge (g : node → node) (c : list string) (a : string)
    (q : list string) (n : node) :
  (∀ b q' d, a ≠ b → walk (b :: q') (g d) = walk (b :: q') d) →
  diverge (c ++ [a]) q →
  walk q (alter_node g c n) = walk q n.
Proof.
  intros Hg (c' & a' & b & p' & q' & Hp & -> & Hab).
  destruct p' as [|x p'] using rev_ind.
  - apply app_inj_tail in Hp as [-> ->]. apply walk_alter_node_sibling.
    intros d. by apply Hg.
  - clear IHp'. rewrite app_comm_cons, app_assoc in Hp.
    apply app_inj_tail in Hp as [-> _].
    apply walk_alter_node_diverge. by exists c', a', b, p', q'.
Qed.

Lemma mkdir_all_diverge (perm now : Z) (p q : list string) (n n' : node) :
  diverge p q → mkdir_all perm now p n = Some n' → walk q n' = walk q n.
Proof.
  intros (c & a & b & p' & q' & -> & -> & Hab). revert n n'.
  induction c as [|s c IH]; intros n n'; simpl.
  - destruct n as [|es m t]; [done|].
    destruct (es !! a); destruct (mkdir_all _ _ p' _); try done;
      intros [= <-]; simpl; by rewrite lookup_insert_ne.
  - destruct n as [|es m t]; [done|].
    destruct (es !! s) as [x|] eqn:Hs.
    + destruct (mkdir_all _ _ _ x) as [x'|] eqn:Hx; [|done].
      intros [= <-]. simpl. rewrite lookup_insert_eq. by apply IH.
    + destruct (mkdir_all _ _ _ (Directory ∅ perm now)) as [x'|] eqn:Hx; [|done].
      intros [= <-]. simpl. rewrite lookup_insert_eq.
      rewrite (IH _ _ Hx). destruct c; simpl; by rewrite lookup_empty.
Qed.

Lemma mkdir_all_below (perm now : Z) (p : list string) (b : string) (q : list string)
    (n n' : node) :
  mkdir_all perm now p n = Some n' → walk (p ++ b :: q) n' = walk (p ++ b :: q) n.
Proof.
  revert n n'. induction p as [|s p IH]; intros n n'; simpl.
  - destruct n; [done|]. by intros [= <-].
  - destruct n as [|es m t]; [done|].
    destruct (es !! s) as [x|] eqn:Hs.
    + destruct (mkdir_all _ _ _ x) as [x'|] eqn:Hx; [|done].
      intros [= <-]. simpl. rewrite lookup_insert_eq. by apply IH.
    + destruct (mkdir_all _ _ _ (Directory ∅ perm now)) as [x'|] eqn:Hx; [|done].
      intros [= <-]. simpl. rewrite lookup_insert_eq.
      rewrite (IH _ _ Hx). destruct p; simpl; by rewrite lookup_empty.
Qed.

(** What [os.Create] changes lies at the location it opens. *)
Lemma os_Create_frame name st fd st' loc q :
  os_Create name st = (Ok fd, st') →
  locate (cwd st) name = Some loc →
  diverge loc q → walk q (root st') = walk q (root st).
Proof.
  run_calls. intros HC Hloc Hd. rewrite Hloc in HC.
  destruct (walk loc (root st)) as [[d m t|es m t]| |] eqn:Hw; try done.
  - injection HC as _ <-. simpl. by apply walk_alter_node_diverge.
  - destruct (parent_of loc) as [[parent base]|] eqn:Hp; [|done].
    destruct (walk parent (root st)) as [[d m t|es m t]| |] eqn:Hwp; try done.
    injection HC as _ <-. simpl. apply parent_of_app in Hp as ->.
    apply (walk_alter_child_diverge _ _ base); [|done].
    intros b q' d Hab. by apply walk_add_child_ne.
Qed.


(** ** The directory part of a path *)

Lemma rooted_head (s : string) :
  s ≠ EmptyString →
  filepath.rooted s = bool_decide (head (strings.Split s) = Some EmptyString).
Proof.
  destruct s as [|c s]; [done|]. intros _. simpl.
  destruct (Ascii.eqb c "/"); [done|].
  pose proof (Split_nonempty s). by destruct (strings.Split s).
Qed.

Lemma Clean_nonempty (path : string) : filepath.Clean path ≠ EmptyString.
Proof.
  destruct (decide (path = EmptyString)) as [->|Hne]; [done|].
  by destruct (abs_segments_Clean [] path Hne).
Qed.

Lemma abs_segments_dot (wd : list string) : abs_segments wd "." = wd.
Proof. pose proof (locate_dot wd) as H. unfold locate in H. simpl in H. by injection H. Qed.

(** The location of a path is the location of its directory part,
    followed by its last component, when that component names an entry. *)
Lemma abs_segments_Dir (wd : list string) (fp : string) (front : list string) (last : string) :
  strings.Split fp = front ++ [last] →
  kept last → last ≠ ".." →
  abs_segments wd fp = abs_segments wd (filepath.Dir fp) ++ [last].
Proof.
  intros HS Hk Hdd. pose proof (Split_no_sep fp) as Hsep. rewrite HS in Hsep.
  apply Forall_app in Hsep as [Hfront _].
  assert (fp ≠ EmptyString) as Hne.
  { intros ->. destruct front as [|? [|? ?]]; simpl in HS; try done.
    injection HS as <-. by destruct Hk. }
  unfold filepath.Dir, filepath.upto_last_sep. rewrite HS, rev_unit.
  destruct (rev front) as [|x xs] eqn:Hf.
  - assert (front = []) as -> by (by rewrite <-(rev_involutive front), Hf).
    change (filepath.Clean EmptyString) with ".". rewrite abs_segments_dot.
    unfold abs_segments. rewrite rooted_head, HS by done. simpl.
    rewrite bool_decide_eq_false_2 by (intros [= ->]; by destruct Hk).
    rewrite walk_step_kept by done. simpl. by rewrite rev_involutive.
  - assert (rev (x :: xs) = front) as -> by (by rewrite <-Hf, rev_involutive).
    assert (front ≠ []) as Hfne by (intros ->; done).
    set (upto := strings.Join front +:+ "/").
    assert (strings.Split upto = front ++ [EmptyString]) as HSu.
    { unfold upto. change "/" with (String "/" EmptyString).
      rewrite Split_app, Split_Join by done. done. }
    assert (upto ≠ EmptyString) as Hune.
    { intros Hu. rewrite Hu in HSu. destruct front as [|? [|? ?]]; done. }
    destruct (abs_segments_Clean wd upto Hune) as [_ ->].
    unfold abs_segments. rewrite !rooted_head, HS, HSu by done.
    assert (head (front ++ [EmptyString]) = head (front ++ [last])) as ->.
    { by destruct front. }
    rewrite !fold_left_app. simpl.
    change (walk_step ?x EmptyString) with x.
    by rewrite walk_step_kept.
Qed.

(** [Clean] on components none of which is [..]: the kept ones pile up. *)
Lemma clean_fold_names (r : bool) (segs acc : list string) :
  Forall (λ s, s ≠ "..") segs →
  fold_left (filepath.clean_step r) segs acc
  = rev (filter (λ s, s ≠ EmptyString ∧ s ≠ ".") segs) ++ acc.
Proof.
  revert acc. induction segs as [|s segs IH]; intros acc Hd; simpl; [done|].
  inversion Hd; subst. rewrite IH by done.
  unfold filepath.clean_step.
  destruct (decide (s ≠ EmptyString ∧ s ≠ ".")) as [[Hx Hy]|Hk].
  - rewrite filter_cons_True by done.
    rewrite !bool_decide_eq_false_2 by done. simpl. by rewrite <-app_assoc.
  - rewrite filter_cons_False by done.
    destruct (bool_decide (s = EmptyString) || bool_decide (s = ".")) eqn:Hb; [done|].
    apply orb_false_iff in Hb as [Hx%bool_decide_eq_false Hy%bool_decide_eq_false].
    by destruct Hk.
Qed.

(** The components of the path that [Get], [Put] and [Delete] build end
    with the identity and the components of the path argument. *)
Lemma Split_Join_store (root_path charmID path : string) :
  is_name charmID = true →
  no_dotdot path = true →
  ∃ pre, strings.Split (filepath.Join [root_path; charmID; path])
         = pre ++ charmID :: names path.
Proof.
  unfold is_name, no_dotdot. rewrite !andb_true_iff, !bool_decide_eq_true.
  intros [[[Hsep Hne] Hdot] Hdd] Hp.
  assert (∀ r acc, filepath.clean_step r acc charmID = charmID :: acc) as Hstep.
  { intros r acc. unfold filepath.clean_step. by rewrite !bool_decide_eq_false_2. }
  assert (∀ X pre0, X ≠ EmptyString →
            strings.Split X = pre0 ++ charmID :: strings.Split path →
            ∃ pre, strings.Split (filepath.Clean X) = pre ++ charmID :: names path) as Hgen.
  { intros X pre0 HX HS. unfold filepath.Clean. rewrite bool_decide_eq_false_2 by done.
    pose proof (clean_steps_no_sep (filepath.rooted X) (strings.Split X) []
                  (Split_no_sep X) (Forall_nil_2 _)) as Hns.
    revert Hns. rewrite HS, fold_left_app. simpl. rewrite Hstep, clean_fold_names by done.
    set (acc0 := fold_left _ pre0 []). fold (names path).
    rewrite rev_app_distr, rev_involutive. simpl. rewrite <-app_assoc. simpl.
    intros Hns%Forall_rev. rewrite rev_app_distr, rev_involutive in Hns.
    simpl in Hns. rewrite <-app_assoc in Hns. simpl in Hns.
    assert (rev acc0 ++ charmID :: names path ≠ []) as Hnil by (by destruct (rev acc0)).
    destruct (filepath.rooted X).
    - exists (EmptyString :: rev acc0).
      change (strings.Split ("/" +:+ ?x)) with (EmptyString :: strings.Split x).
      by rewrite Split_Join.
    - exists (rev acc0).
      destruct (rev acc0 ++ charmID :: names path) eqn:Heq; [done|].
      rewrite <-Heq in *. by rewrite Split_Join. }
  unfold filepath.Join. rewrite (bool_decide_eq_false_2 (charmID = EmptyString)) by done.
  case_bool_decide as Hroot.
  - apply (Hgen _ []); [by destruct charmID|].
    change (strings.Join [charmID; path]) with (charmID +:+ String "/" path).
    by rewrite Split_app, Hsep.
  - apply (Hgen _ (strings.Split root_path)); [by destruct root_path|].
    change (strings.Join [root_path; charmID; path])
      with (root_path +:+ String "/" (charmID +:+ String "/" path)).
    by rewrite !Split_app, Hsep.
Qed.

Lemma names_kept (path : string) :
  no_dotdot path = true → Forall (λ s, kept s ∧ s ≠ "..") (names path).
Proof.
  unfold no_dotdot, names. rewrite bool_decide_eq_true. intros Hp.
  apply Forall_forall. intros s [Hk Hin]%list_elem_of_filter. split; [done|].
  by apply (proj1 (Forall_forall _ _) Hp).
Qed.

(** Where [Put] makes the parent directories: the location of the
    target without its last component. *)
Lemma locate_Dir_Join (wd : list string) (root_path charmID path : string) :
  is_name charmID = true →
  no_dotdot path = true →
  ∃ front last,
    charmID :: names path = front ++ [last] ∧
    locate wd (filepath.Dir (filepath.Join [root_path; charmID; path]))
    = Some (abs_segments wd root_path ++ front).
Proof.
  intros Hid Hp.
  destruct (Split_Join_store root_path charmID path Hid Hp) as [pre HS].
  pose proof (locate_Join wd root_path charmID path Hid Hp) as Hloc.
  assert (Forall (λ s, kept s ∧ s ≠ "..") (charmID :: names path)) as Hall.
  { constructor; [|by apply names_kept].
    unfold is_name in Hid. rewrite !andb_true_iff, !bool_decide_eq_true in Hid.
    by destruct Hid as [[[? ?] ?] ?]. }
  destruct (exists_last (l:=charmID :: names path)) as (front & last & Hfl); [done|].
  rewrite Hfl in *. apply Forall_app in Hall as [_ Hlast].
  inversion Hlast as [|? ? [Hk Hdd] _]; subst.
  exists front, last. split; [done|].
  rewrite app_assoc in HS.
  pose proof (abs_segments_Dir wd _ _ _ HS Hk Hdd) as Hd.
  unfold locate in Hloc. case_bool_decide; [done|]. injection Hloc as Hloc.
  rewrite Hloc, app_assoc in Hd. apply app_inj_tail in Hd as [Hd _].
  unfold locate, filepath.Dir.
  rewrite bool_decide_eq_false_2 by apply Clean_nonempty.
  f_equal. by rewrite Hd.
Qed.


(** ** What a call can touch *)

(** [Put] changes the tree only at the location it resolves and at the
    directories it makes on the way to it. *)
Lemma Put_root_frame lfs charmID path r mode st q :
  (∀ loc, locate (cwd st) (filepath.Join [Path lfs; charmID; path]) = Some loc →
     diverge loc q) →
  (∀ ploc, locate (cwd st) (filepath.Dir (filepath.Join [Path lfs; charmID; path]))
           = Some ploc →
     diverge ploc q ∨ ∃ b q', q = ploc ++ b :: q') →
  walk q (root (Put lfs charmID path r mode st).2) = walk q (root st).
Proof.
  unfold Put. set (fp := filepath.Join [Path lfs; charmID; path]).
  intros Hfp Hdir.
  destruct (fs.IsDir mode).
  { destruct (storage.EnsureDir fp mode st) as [[e|] st1] eqn:HE.
    - by apply EnsureDir_err in HE as [-> _].
    - apply EnsureDir_ok in HE as (loc & r1 & Hloc & Hmk & ->). simpl.
      by apply (mkdir_all_diverge _ _ _ _ _ _ (Hfp _ Hloc) Hmk). }
  unfold_M.
  destruct (storage.EnsureDir (filepath.Dir fp) mode st) as [[e|] st1] eqn:HE.
  { by apply EnsureDir_err in HE as [-> _]. }
  apply EnsureDir_ok in HE as (ploc & r1 & Hploc & Hmk & ->).
  assert (walk q r1 = walk q (root st)) as H1.
  { destruct (Hdir _ Hploc) as [Hd|(b & q' & ->)].
    - by apply (mkdir_all_diverge _ _ _ _ _ _ Hd Hmk).
    - by apply (mkdir_all_below _ _ _ _ _ _ _ Hmk). }
  destruct (os_Create fp (set_root r1 st)) as [[fd|e] st2] eqn:HC.
  2:{ apply os_Create_err in HC as ->. simpl. unfold f_Close. by unfold_M. }
  pose proof HC as HC'.
  apply os_Create_ok in HC as (loc & m & r2 & Hloc & Hfd & -> & Hw2 & Hm).
  simpl in Hloc, Hfd, Hm.
  pose proof (os_Create_frame _ _ _ _ _ q HC' Hloc (Hfp _ Hloc)) as H2. simpl in H2.
  simpl value.
  set (o := {| of_loc := loc; of_name := filepath.basename fp; of_off := 0 |}) in *.
  erewrite (io_Copy_file fd r _ o); [|by simpl; rewrite lookup_insert_eq|by simpl; apply Hw2].
  simpl.
  set (r3 := alter_node _ loc r2).
  assert (walk loc r3 = Found (File (write_at 0 (rd_data r) []) m (clock st))) as Hw3.
  { unfold r3. by rewrite (walk_alter_node_same _ _ _ _ Hw2). }
  assert (walk q r3 = walk q (root st)) as H3.
  { unfold r3. rewrite walk_alter_node_diverge by auto. by rewrite H2. }
  destruct (rd_err r) as [e|]; [|case_bool_decide].
  - erewrite f_Close_open; [|by simpl; rewrite lookup_insert_eq]. done.
  - erewrite (f_Chmod_found fd mode _ _ _); [|by simpl; rewrite lookup_insert_eq|by simpl; apply Hw3].
    erewrite f_Close_open; [|by simpl; rewrite lookup_insert_eq].
    simpl. rewrite walk_alter_node_diverge by auto. done.
  - erewrite f_Close_open; [|by simpl; rewrite lookup_insert_eq]. done.
Qed.

(** [Delete] changes the tree only at the location it resolves. *)
Lemma Delete_root_frame lfs charmID path st q :
  (∀ loc, locate (cwd st) (filepath.Join [Path lfs; charmID; path]) = Some loc →
     diverge loc q) →
  walk q (root (Delete lfs charmID path st).2) = walk q (root st).
Proof.
  intros Hfp. rewrite Delete_RemoveAll.
  pose proof (os_RemoveAll_cases (filepath.Join [Path lfs; charmID; path]) st) as Hc.
  destruct (os_RemoveAll _ st) as [err st']. simpl in *.
  inversion Hc as [| | | | loc parent base n _ Hloc Hw Hp | n r' Hloc Hw ]; subst; try done.
  - simpl. apply parent_of_app in Hp as Hl. specialize (Hfp _ Hloc). rewrite Hl in Hfp.
    apply (walk_alter_child_diverge _ _ base); [|done].
    intros b q' d Hab. by apply walk_del_child_ne.
  - destruct (Hfp _ Hloc) as (c & a & b & p' & q' & Hnil & _). by destruct c.
Qed.

Section GetFrame.

Variable marshal : charm.FileInfo → option (list byte).

(** [Get] changes nothing in the tree, and its answer is decided by
    what is at the location it resolves. *)
Lemma Get_root lfs charmID path st :
  root (Get marshal lfs charmID path st).2 = root st.
Proof.
  destruct (locate (cwd st) (filepath.Join [Path lfs; charmID; path])) as [loc|] eqn:Hloc.
  - destruct (walk loc (root st)) as [[d m t|es m t]| |] eqn:Hw.
    + by rewrite (Get_file marshal _ _ _ _ _ _ _ _ Hloc Hw).
    + by rewrite (Get_dir marshal _ _ _ _ _ _ _ _ Hloc Hw).
    + rewrite Get_absent; [done|]. unfold missing. by rewrite Hloc, Hw.
    + by rewrite (Get_through_file marshal _ _ _ _ _ Hloc Hw).
  - rewrite Get_absent; [done|]. unfold missing. by rewrite Hloc.
Qed.

Lemma Get_reads_location lfs charmID path st st2 loc :
  locate (cwd st) (filepath.Join [Path lfs; charmID; path]) = Some loc →
  cwd st2 = cwd st → fds st2 = fds st →
  walk loc (root st2) = walk loc (root st) →
  (Get marshal lfs charmID path st2).1 = (Get marshal lfs charmID path st).1.
Proof.
  intros Hloc Hcwd Hfds Hsame.
  assert (locate (cwd st2) (filepath.Join [Path lfs; charmID; path]) = Some loc) as Hloc2.
  { by rewrite Hcwd. }
  destruct (walk loc (root st)) as [[d m t|es m t]| |] eqn:Hw.
  - rewrite (Get_file marshal _ _ _ _ _ _ _ _ Hloc Hw).
    rewrite (Get_file marshal _ _ _ _ _ _ _ _ Hloc2 Hsame). simpl. by rewrite Hfds.
  - rewrite (Get_dir marshal _ _ _ _ _ _ _ _ Hloc Hw).
    by rewrite (Get_dir marshal _ _ _ _ _ _ _ _ Hloc2 Hsame).
  - rewrite !Get_absent; [done| |]; unfold missing; [by rewrite Hloc, Hw|by rewrite Hloc2, Hsame].
  - rewrite (Get_through_file marshal _ _ _ _ _ Hloc Hw).
    by rewrite (Get_through_file marshal _ _ _ _ _ Hloc2 Hsame).
Qed.

End GetFrame.


(** ** When [Put] goes through *)

Lemma EnsureDir_run path mode st loc r' :
  locate (cwd st) path = Some loc →
  mkdir_all (fs.Perm mode) (clock st) loc (root st) = Some r' →
  storage.EnsureDir path mode st = (None, set_root r' st).
Proof. intros Hloc Hmk. run_calls. by rewrite Hloc, Hmk. Qed.




(** ** Descriptors held across the calls *)

(** [Put] leaves the descriptor table, the working directory and the
    clock as it found them, on every path through it. *)
Lemma Put_frame lfs charmID path r mode st :
  fds (Put lfs charmID path r mode st).2 = fds st ∧
  cwd (Put lfs charmID path r mode st).2 = cwd st ∧
  clock (Put lfs charmID path r mode st).2 = clock st.
Proof.
  unfold Put. set (fp := filepath.Join [Path lfs; charmID; path]).
  destruct (fs.IsDir mode).
  { destruct (storage.EnsureDir fp mode st) as [[e|] st1] eqn:HE.
    - by apply EnsureDir_err in HE as [-> _].
    - by apply EnsureDir_ok in HE as (loc & r1 & _ & _ & ->). }
  unfold_M.
  destruct (storage.EnsureDir (filepath.Dir fp) mode st) as [[e|] st1] eqn:HE.
  { by apply EnsureDir_err in HE as [-> _]. }
  apply EnsureDir_ok in HE as (ploc & r1 & Hploc & Hmk & ->).
  destruct (os_Create fp (set_root r1 st)) as [[fd|e] st2] eqn:HC.
  2:{ apply os_Create_err in HC as ->. simpl. unfold f_Close. by unfold_M. }
  apply os_Create_ok in HC as (loc & m & r2 & Hloc & Hfd & -> & Hw2 & Hm).
  simpl in Hloc, Hfd, Hm. simpl value.
  set (o := {| of_loc := loc; of_name := filepath.basename fp; of_off := 0 |}) in *.
  erewrite (io_Copy_file fd r _ o); [|by simpl; rewrite lookup_insert_eq|by simpl; apply Hw2].
  simpl.
  set (r3 := alter_node _ loc r2).
  assert (walk loc r3 = Found (File (write_at 0 (rd_data r) []) m (clock st))) as Hw3.
  { unfold r3. by rewrite (walk_alter_node_same _ _ _ _ Hw2). }
  destruct (rd_err r) as [e|]; [|case_bool_decide].
  - erewrite f_Close_open; [|by simpl; rewrite lookup_insert_eq].
    simpl. split; [|done]. rewrite Hfd. apply delete_fresh_fd.
  - erewrite (f_Chmod_found fd mode _ _ _); [|by simpl; rewrite lookup_insert_eq|by simpl; apply Hw3].
    erewrite f_Close_open; [|by simpl; rewrite lookup_insert_eq].
    simpl. split; [|done]. rewrite Hfd. apply delete_fresh_fd.
  - erewrite f_Close_open; [|by simpl; rewrite lookup_insert_eq].
    simpl. split; [|done]. rewrite Hfd. apply delete_fresh_fd.
Qed.

Section Descriptors.

Variable marshal : charm.FileInfo → option (list byte).

(** On a directory [Get] opens a descriptor and never closes it: the
    descriptor stays in the table whether the call succeeds or fails in
    the encoder, and closing the handle that is returned releases nothing. *)
Lemma Get_dir_leaves_descriptor lfs charmID path st loc es m t :
  locate (cwd st) (filepath.Join [Path lfs; charmID; path]) = Some loc →
  walk loc (root st) = Found (Directory es m t) →
  fds st !! fresh_fd (fds st) = None ∧
  is_Some (fds (Get marshal lfs charmID path st).2 !! fresh_fd (fds st)) ∧
  ∀ h, (Get marshal lfs charmID path st).1 = Ok h →
    (File_Close h (Get marshal lfs charmID path st).2).2 = (Get marshal lfs charmID path st).2.
Proof.
  intros Hloc Hw. rewrite (Get_dir marshal _ _ _ _ _ _ _ _ Hloc Hw). simpl.
  split; [apply fresh_fd_None|]. split.
  - rewrite lookup_insert_eq. eauto.
  - intros h. by destruct (json.Marshal _ _); intros [= <-].
Qed.

End Descriptors.


(** * The claims *)

Section Claims.

Variable marshal : charm.FileInfo → option (list byte).


(** C2, as amended.  When both identities are single proper path
    components (not empty, without separator, neither [.] nor [..]) and
    the path has no [..] component, the location that [Get], [Put] and
    [Delete] resolve for one identity is its own namespace followed by
    the components of the path: inside that namespace, hence inside the
    store root, and not inside the namespace of the other identity.  No
    such [Put] or [Delete] changes anything in the namespace of the other
    identity; [Get] changes nothing in the tree, and its answer is decided
    by what is at the location it resolves. *)
Theorem C2_namespace_confined lfs idA idB path st :
  is_name idA = true → is_name idB = true → idA ≠ idB →
  no_dotdot path = true →
  locate (cwd st) (filepath.Join [Path lfs; idA; path])
  = Some (namespace (cwd st) lfs idA ++ names path)
  ∧ ¬ namespace (cwd st) lfs idB `prefix_of` namespace (cwd st) lfs idA ++ names path
  ∧ (∀ r mode q,
       walk (namespace (cwd st) lfs idB ++ q) (root (Put lfs idA path r mode st).2)
       = walk (namespace (cwd st) lfs idB ++ q) (root st))
  ∧ (∀ q,
       walk (namespace (cwd st) lfs idB ++ q) (root (Delete lfs idA path st).2)
       = walk (namespace (cwd st) lfs idB ++ q) (root st))
  ∧ root (Get marshal lfs idA path st).2 = root st
  ∧ (∀ st2, cwd st2 = cwd st → fds st2 = fds st →
       walk (namespace (cwd st) lfs idA ++ names path) (root st2)
       = walk (namespace (cwd st) lfs idA ++ names path) (root st) →
       (Get marshal lfs idA path st2).1 = (Get marshal lfs idA path st).1).
Proof.
  intros HA HB Hne Hp.
  assert (locate (cwd st) (filepath.Join [Path lfs; idA; path])
          = Some (namespace (cwd st) lfs idA ++ names path)) as Hloc.
  { rewrite (locate_Join _ _ _ _ HA Hp). unfold namespace. by rewrite <-app_assoc. }
  assert (∀ q, diverge (namespace (cwd st) lfs idA ++ names path)
                 (namespace (cwd st) lfs idB ++ q)) as Hdiv.
  { intros q. exists (abs_segments (cwd st) (Path lfs)), idA, idB, (names path), q.
    unfold namespace. by rewrite <-!app_assoc. }
  split; [done|]. split; [|split; [|split; [|split]]].
  - unfold namespace. intros [k Hk]. rewrite <-!app_assoc in Hk.
    apply app_inv_head in Hk. simpl in Hk. by injection Hk.
  - intros r mode q. apply Put_root_frame.
    + intros loc. rewrite Hloc. intros [= <-]. apply Hdiv.
    + intros ploc.
      destruct (locate_Dir_Join (cwd st) (Path lfs) idA path HA Hp)
        as (front & last & Hfl & ->).
      intros [= <-]. destruct front as [|a front].
      * right. exists idB, q. unfold namespace. by rewrite app_nil_r, <-app_assoc.
      * left. injection Hfl as <- _.
        exists (abs_segments (cwd st) (Path lfs)), idA, idB, front, q.
        unfold namespace. by rewrite <-app_assoc.
  - intros q. apply Delete_root_frame.
    intros loc. rewrite Hloc. intros [= <-]. apply Hdiv.
  - apply Get_root.
  - intros st2. by apply Get_reads_location.
Qed.

(** C3.  For a path that resolves to an existing directory whose listing
    the encoder accepts, [Get] returns a handle whose content is the
    encoded listing followed by a newline, the listing holding one entry
    per immediate child (name, directory flag, size, modification time,
    mode) in directory order and nothing of deeper descendants; the
    [Stat] of the handle is the metadata of the directory itself, with
    the directory flag set. *)
Theorem C3_get_directory_listing lfs charmID path st loc es m t doc :
  locate (cwd st) (filepath.Join [Path lfs; charmID; path]) = Some loc →
  walk loc (root st) = Found (Directory es m t) →
  json.Marshal marshal (make_slice (listing es)) = Ok doc →
  ∃ h st',
    Get marshal lfs charmID path st = (Ok h, st') ∧
    (∀ n fuel, 0 < n → length (doc ++ [x0a]) < fuel →
       ∃ h', ReadAll fuel n h st' = ((h', Some (doc ++ [x0a])), st')) ∧
    (∃ info, File_Stat h st' = (Ok info, st') ∧
       info = node_info (filepath.basename (filepath.Join [Path lfs; charmID; path]))
                (Directory es m t) ∧
       fs.IsDir (fs.Mode info) = true) ∧
    length (listing es) = size es ∧
    (∀ e, e ∈ listing es ↔ ∃ name c, es !! name = Some c ∧ e = entry_info (name, c)).
Proof.
  intros Hloc Hw Hdoc.
  eexists _, _. split.
  { rewrite (Get_dir marshal _ _ _ _ _ _ _ _ Hloc Hw), Hdoc. reflexivity. }
  split; [|split; [|split]].
  - intros n fuel Hn Hfuel.
    destruct (ReadAll_dir_File fuel n
                {| buffer := bytes_NewBuffer (doc ++ [x0a]);
                   fileInfo := Some (node_info
                     (filepath.basename (filepath.Join [Path lfs; charmID; path]))
                     (Directory es m t)) |}
                (opened loc (filepath.basename (filepath.Join [Path lfs; charmID; path])) st))
      as (df' & HR); [done|simpl; lia|].
    eauto.
  - eexists. split; [reflexivity|]. split; [done|]. apply IsDir_dir_mode.
  - unfold listing. by rewrite length_map, length_map_to_list.
  - intros e. unfold listing. rewrite list_elem_of_fmap. split.
    + intros ([name c] & -> & Hin%elem_of_map_to_list). eauto.
    + intros (name & c & Hes & ->). exists (name, c). split; [done|].
      by apply elem_of_map_to_list.
Qed.



(** C7.  After a [Delete] that reports no error, [Get] of the same
    identity and path yields Not-Found, and nothing is left at the
    resolved location or below it, whatever the state was before. *)
Theorem C7_delete_then_get lfs charmID path st st' :
  Delete lfs charmID path st = (None, st') →
  Get marshal lfs charmID path st' = (Err ErrNotExist, st') ∧
  ∀ loc q, locate (cwd st') (filepath.Join [Path lfs; charmID; path]) = Some loc →
    walk (loc ++ q) (root st') = NoEnt.
Proof.
  rewrite Delete_RemoveAll.
  pose proof (os_RemoveAll_cases (filepath.Join [Path lfs; charmID; path]) st) as Hc.
  intros HD. rewrite HD in Hc. simpl in Hc.
  assert (∀ loc q, locate (cwd st') (filepath.Join [Path lfs; charmID; path]) = Some loc →
            walk (loc ++ q) (root st') = NoEnt) as Hgone.
  { inversion Hc as [He | | loc Hloc Hw | | loc parent base n _ Hloc Hw Hp | ]; subst.
    - intros loc q. rewrite He. done.
    - intros loc' q Hloc'. rewrite Hloc in Hloc'. injection Hloc' as <-.
      by rewrite walk_app, Hw.
    - intros loc' q Hloc'. simpl in Hloc'. rewrite Hloc in Hloc'. injection Hloc' as <-.
      simpl. apply parent_of_app in Hp as ->.
      rewrite walk_app in Hw.
      destruct (walk parent (root st)) as [d| |] eqn:Hwp; try done.
      rewrite <-app_assoc. rewrite (walk_alter_node _ _ _ _ _ Hwp).
      destruct d as [|es m t]; [done|]. simpl. by rewrite lookup_delete_eq. }
  split; [|done].
  apply Get_absent. unfold missing.
  destruct (locate _ _) as [loc|] eqn:Hloc; [|done].
  specialize (Hgone loc [] eq_refl). by rewrite app_nil_r in Hgone.
Qed.

(** C8.  With a directory mode [Put] is [EnsureDir] of the resolved
    path: the content source plays no part, an existing directory is no
    error and nothing changes, and after a successful call every
    directory on the way to the location is there, the ones that were
    missing with the permission bits of the mode.  With any other mode a
    successful [Put] leaves, below existing parent directories, a regular
    file holding exactly the bytes of the content source, whose mode is
    the requested bits when the mode is not zero and is otherwise what
    creation or truncation left. *)
Theorem C8_put_behaviour lfs charmID path r mode st :
  (fs.IsDir mode = true →
     (∀ r', Put lfs charmID path r' mode st
            = storage.EnsureDir (filepath.Join [Path lfs; charmID; path]) mode st) ∧
     (∀ loc es m t,
        locate (cwd st) (filepath.Join [Path lfs; charmID; path]) = Some loc →
        walk loc (root st) = Found (Directory es m t) →
        Put lfs charmID path r mode st = (None, st)) ∧
     (∀ st', Put lfs charmID path r mode st = (None, st') →
        ∃ loc, locate (cwd st) (filepath.Join [Path lfs; charmID; path]) = Some loc ∧
          ∀ p q, loc = p ++ q →
            ∃ es m t, walk p (root st') = Found (Directory es m t) ∧
              match walk p (root st) with
              | Found (Directory _ m0 _) => m = m0
              | _ => m = fs.Perm mode
              end))
  ∧ (fs.IsDir mode = false →
     ∀ st', Put lfs charmID path r mode st = (None, st') →
       ∃ loc, locate (cwd st) (filepath.Join [Path lfs; charmID; path]) = Some loc ∧
         rd_err r = None ∧
         walk loc (root st')
         = Found (File (rd_data r) (mode_after_Put mode (walk loc (root st))) (clock st)) ∧
         ∀ p q, loc = p ++ q → q ≠ [] →
           ∃ es m t, walk p (root st') = Found (Directory es m t)).
Proof.
  set (fp := filepath.Join [Path lfs; charmID; path]). split.
  - intros Hmode.
    assert (∀ r', Put lfs charmID path r' mode st = storage.EnsureDir fp mode st) as HP.
    { intros r'. unfold Put. by rewrite Hmode. }
    split; [done|]. split.
    + intros loc es m t Hloc Hw. rewrite HP. unfold storage.EnsureDir, os_MkdirAll. unfold_M.
      rewrite Hloc. rewrite (mkdir_all_existing _ _ _ _ _ _ _ Hw). by destruct st.
    + intros st'. rewrite HP. intros (loc & r' & Hloc & Hmk & ->)%EnsureDir_ok.
      exists loc. split; [done|]. intros p q ->.
      destruct (mkdir_all_prefix _ _ _ _ _ _ Hmk) as (es & m & t & Hw & Hm).
      exists es, m, t. split; [done|].
      destruct (walk p (root st)) as [[|]| |]; try done. by destruct Hm.
  - intros Hmode st' HPut.
    destruct (Put_file_ok _ _ _ _ _ _ _ Hmode HPut) as (loc & r' & Hloc & -> & Hr & Hw).
    exists loc. split; [done|]. split; [done|]. split; [done|].
    intros p q -> Hq. simpl. rewrite walk_app in Hw.
    destruct (walk p r') as [[d m t|es m t]| |]; try done; [|eauto].
    by destruct q.
Qed.


(** C10.  For a path that resolves to an existing empty directory, the
    document [Get] returns is an opening bracket, a closing bracket and a
    newline: the encoding of an empty array, not of [null].  More
    generally the document of any directory opens with a bracket, because
    the collection handed to the encoder is never the nil slice. *)
Theorem C10_empty_directory_listing lfs charmID path st loc m t :
  locate (cwd st) (filepath.Join [Path lfs; charmID; path]) = Some loc →
  (walk loc (root st) = Found (Directory ∅ m t) →
   ∃ info st',
     Get marshal lfs charmID path st
     = (Ok (dir_File {| buffer := bytes_NewBuffer [x5b; x5d; x0a]; fileInfo := Some info |}),
        st') ∧
     [x5b; x5d; x0a] ≠ json.null ++ [x0a])
  ∧ (∀ es df st',
       walk loc (root st) = Found (Directory es m t) →
       Get marshal lfs charmID path st = (Ok (dir_File df), st') →
       ∃ rest, buf (buffer df) = x5b :: rest).
Proof.
  intros Hloc. split.
  - intros Hw. eexists _, _. split; [|done].
    rewrite (Get_dir marshal _ _ _ _ _ _ _ _ Hloc Hw).
    unfold listing. rewrite map_to_list_empty. reflexivity.
  - intros es df st' Hw. rewrite (Get_dir marshal _ _ _ _ _ _ _ _ Hloc Hw).
    unfold json.Marshal. destruct (json.marshal_all marshal (listing es)); [|done].
    intros [= <- _]. simpl. eauto.
Qed.

End Claims.

(** ** The claims on the example store *)

(** C4.  The call [Get] of the directory [notes] of the example store:
    no descriptor is open before the call; the call returns a [DirFile],
    whose release gives nothing back; and one descriptor, the one the
    call opened to read the directory, is still open afterwards. *)
Theorem C4_get_directory_leaks_descriptor :
  fds example_notes = ∅ ∧
  (∃ df, (Get example_marshal example_store "abc" "notes" example_notes).1 = Ok (dir_File df) ∧
     (File_Close (dir_File df)
        (Get example_marshal example_store "abc" "notes" example_notes).2).2
     = (Get example_marshal example_store "abc" "notes" example_notes).2) ∧
  size (fds (Get example_marshal example_store "abc" "notes" example_notes).2) = 1.
Proof.
  split; [by vm_compute|]. split; [|by vm_compute].
  eexists. split; by vm_compute.
Qed.


(** The claim C2 as stated fails: for the distinct identities [alice]
    and [bob], the path [../bob/key] given with identity [alice]
    resolves to the file [key] of [bob], outside the namespace of
    [alice]; [Get] reads the bytes [bob] stored there, [Put] overwrites
    them and [Delete] removes them. *)
Lemma C2_counterexample :
  "alice" ≠ "bob" ∧
  locate (cwd example_bob) (filepath.Join [Path example_store; "alice"; "../bob/key"])
  = Some (namespace (cwd example_bob) example_store "bob" ++ ["key"]) ∧
  ¬ namespace (cwd example_bob) example_store "alice"
      `prefix_of` namespace (cwd example_bob) example_store "bob" ++ ["key"] ∧
  (∃ h st', Get example_marshal example_store "alice" "../bob/key" example_bob = (Ok h, st') ∧
     (ReadAll 9 4 h st').1.2 = Some buy_milk) ∧
  walk (namespace (cwd example_bob) example_store "bob" ++ ["key"]) (root example_bob)
  = Found (File buy_milk 384 100) ∧
  walk (namespace (cwd example_bob) example_store "bob" ++ ["key"])
    (root (Put example_store "alice" "../bob/key" (bytes_NewReader []) 420 example_bob).2)
  = Found (File [] 420 100) ∧
  walk (namespace (cwd example_bob) example_store "bob" ++ ["key"])
    (root (Delete example_store "alice" "../bob/key" example_bob).2) = NoEnt.
Proof.
  split; [done|]. split; [by vm_compute|]. split.
  { intros [k Hk]. vm_compute in Hk. done. }
  split; [|split; [|split]; by vm_compute].
  eexists _, _. split; by vm_compute.
Qed.

(** C2, as amended, on the example store: a write of [alice] leaves the
    namespace of [bob] as it was. *)
Lemma C2_witness :
  is_name "alice" = true ∧ is_name "bob" = true ∧ "alice" ≠ "bob" ∧
  no_dotdot "notes/./todo.txt" = true ∧
  locate (cwd example_bob) (filepath.Join [Path example_store; "alice"; "notes/./todo.txt"])
  = Some (namespace (cwd example_bob) example_store "alice" ++ names "notes/./todo.txt") ∧
  ∀ r mode q,
    walk (namespace (cwd example_bob) example_store "bob" ++ q)
      (root (Put example_store "alice" "notes/./todo.txt" r mode example_bob).2)
    = walk (namespace (cwd example_bob) example_store "bob" ++ q) (root example_bob).
Proof.
  split; [reflexivity|]. split; [reflexivity|]. split; [done|]. split; [reflexivity|].
  destruct (C2_namespace_confined example_marshal example_store "alice" "bob"
              "notes/./todo.txt" example_bob) as (H1 & _ & H3 & _);
    [reflexivity|reflexivity|done|reflexivity|].
  split; [exact H1|exact H3].
Defined.

(** C3 on the example store: the listing of [notes]. *)
Lemma C3_witness :
  locate (cwd example_notes) (filepath.Join [Path example_store; "abc"; "notes"])
  = Some ["srv"; "charm"; "abc"; "notes"] ∧
  walk ["srv"; "charm"; "abc"; "notes"] (root example_notes)
  = Found (Directory {[ "todo.txt" := File buy_milk 420 100 ]} 420 100) ∧
  json.Marshal example_marshal
    (make_slice (listing {[ "todo.txt" := File buy_milk 420 100 ]}))
  = Ok [x5b; x7b; x7d; x5d] ∧
  ∃ h st',
    Get example_marshal example_store "abc" "notes" example_notes = (Ok h, st') ∧
    (∀ n fuel, 0 < n → length ([x5b; x7b; x7d; x5d] ++ [x0a]) < fuel →
       ∃ h', ReadAll fuel n h st' = ((h', Some ([x5b; x7b; x7d; x5d] ++ [x0a])), st')) ∧
    (∃ info, File_Stat h st' = (Ok info, st') ∧
       info = node_info
                (filepath.basename (filepath.Join [Path example_store; "abc"; "notes"]))
                (Directory {[ "todo.txt" := File buy_milk 420 100 ]} 420 100) ∧
       fs.IsDir (fs.Mode info) = true) ∧
    length (listing {[ "todo.txt" := File buy_milk 420 100 ]})
    = size ({[ "todo.txt" := File buy_milk 420 100 ]} : gmap string node) ∧
    (∀ e, e ∈ listing {[ "todo.txt" := File buy_milk 420 100 ]} ↔
       ∃ name c, ({[ "todo.txt" := File buy_milk 420 100 ]} : gmap string node) !! name
                 = Some c ∧ e = entry_info (name, c)).
Proof.
  split; [vm_compute; reflexivity|]. split; [vm_compute; reflexivity|].
  split; [vm_compute; reflexivity|].
  apply (C3_get_directory_listing example_marshal example_store "abc" "notes" example_notes
           ["srv"; "charm"; "abc"; "notes"]);
    vm_compute; reflexivity.
Defined.





(** C7 on the example store: [notes] is deleted and then looked for. *)
Lemma C7_witness :
  Delete example_store "abc" "notes" example_notes
  = (None, (Delete example_store "abc" "notes" example_notes).2) ∧
  Get example_marshal example_store "abc" "notes"
    (Delete example_store "abc" "notes" example_notes).2
  = (Err ErrNotExist, (Delete example_store "abc" "notes" example_notes).2) ∧
  ∀ loc q,
    locate (cwd (Delete example_store "abc" "notes" example_notes).2)
      (filepath.Join [Path example_store; "abc"; "notes"]) = Some loc →
    walk (loc ++ q) (root (Delete example_store "abc" "notes" example_notes).2) = NoEnt.
Proof.
  split; [vm_compute; reflexivity|].
  apply (C7_delete_then_get example_marshal example_store "abc" "notes" example_notes).
  vm_compute; reflexivity.
Defined.

(** C8 on the example store: the file that [Put] left. *)
Lemma C8_witness :
  fs.IsDir 420 = false ∧
  Put example_store "abc" "notes/todo.txt" (bytes_NewReader buy_milk) 420 example_boot
  = (None, example_notes) ∧
  ∃ loc,
    locate (cwd example_boot) (filepath.Join [Path example_store; "abc"; "notes/todo.txt"])
    = Some loc ∧
    rd_err (bytes_NewReader buy_milk) = None ∧
    walk loc (root example_notes)
    = Found (File (rd_data (bytes_NewReader buy_milk))
               (mode_after_Put 420 (walk loc (root example_boot))) (clock example_boot)) ∧
    ∀ p q, loc = p ++ q → q ≠ [] →
      ∃ es m t, walk p (root example_notes) = Found (Directory es m t).
Proof.
  split; [reflexivity|]. split; [vm_compute; reflexivity|].
  apply (proj2 (C8_put_behaviour example_store "abc" "notes/todo.txt"
                  (bytes_NewReader buy_milk) 420 example_boot));
    [reflexivity|vm_compute; reflexivity].
Defined.


(** C10 on the example store: the listing of the empty [inbox]. *)
Lemma C10_witness :
  locate (cwd example_inbox) (filepath.Join [Path example_store; "abc"; "inbox"])
  = Some ["srv"; "charm"; "abc"; "inbox"] ∧
  walk ["srv"; "charm"; "abc"; "inbox"] (root example_inbox) = Found (Directory ∅ 493 100) ∧
  ∃ info st',
    Get example_marshal example_store "abc" "inbox" example_inbox
    = (Ok (dir_File {| buffer := bytes_NewBuffer [x5b; x5d; x0a]; fileInfo := Some info |}),
       st') ∧
    [x5b; x5d; x0a] ≠ json.null ++ [x0a].
Proof.
  assert (locate (cwd example_inbox) (filepath.Join [Path example_store; "abc"; "inbox"])
          = Some ["srv"; "charm"; "abc"; "inbox"]) as Hloc.
  { vm_compute. reflexivity. }
  assert (walk ["srv"; "charm"; "abc"; "inbox"] (root example_inbox)
          = Found (Directory ∅ 493 100)) as Hw.
  { vm_compute. reflexivity. }
  split; [exact Hloc|]. split; [exact Hw|].
  exact (proj1 (C10_empty_directory_listing example_marshal example_store "abc" "inbox"
                  example_inbox _ 493 100 Hloc) Hw).
Defined.

(** ** The scenario of the specification *)

Example scenario_get_file :
  ∃ h st', Get example_marshal example_store "abc" "notes/todo.txt" example_notes = (Ok h, st') ∧
    (ReadAll 9 512 h st').1.2 = Some buy_milk.
Proof. eexists _, _. split; by vm_compute. Qed.

Example scenario_listing :
  listing {[ "todo.txt" := File buy_milk 420 100 ]}
  = [ {| charm.Name := "todo.txt"; charm.IsDir := false; charm.Size := 8;
         charm.ModTime := 100; charm.Mode := 420 |} ].
Proof. by vm_compute. Qed.

Example scenario_delete_then_get :
  Get example_marshal example_store "abc" "notes/todo.txt"
    (Delete example_store "abc" "notes" example_notes).2
  = (Err ErrNotExist, (Delete example_store "abc" "notes" example_notes).2).
Proof. by vm_compute. Qed.

(** A path that runs through a regular file is not reported as missing:
    [Get] answers the not-a-directory error, and so does [Delete]. *)
Example through_file_get :
  Get example_marshal example_store "abc" "notes/todo.txt/x" example_notes
  = (Err (PathError ENOTDIR), example_notes).
Proof. by vm_compute. Qed.

Example through_file_delete :
  Delete example_store "abc" "notes/todo.txt/x" example_notes
  = (Some (PathError ENOTDIR), example_notes).
Proof. by vm_compute. Qed.


(** * Further properties of [storage.go] *)

(** ** Helpers *)

Lemma set_root_same (st : OS) : set_root (root st) st = st.
Proof. by destruct st. Qed.

(** Closing the descriptor that was just allocated gives back the state
    before the allocation. *)
Lemma f_Close_opened (loc : list string) (name : string) (st : OS) :
  f_Close (Some (fresh_fd (fds st))) (opened loc name st) = (None, st).
Proof.
  erewrite f_Close_open; [|apply lookup_insert_eq].
  unfold opened, set_fds. simpl. rewrite delete_insert_eq.
  rewrite delete_id by apply fresh_fd_None. by destruct st.
Qed.

(** A [DirFile] read to its end: the unread part of the buffer is
    delivered, the file information is kept, and the buffer is left empty. *)
Lemma ReadAll_dir_File_end (fuel n : nat) (df : DirFile) (st : OS) :
  0 < n →
  length (buf (buffer df)) - off (buffer df) < fuel →
  ∃ df', ReadAll fuel n (dir_File df) st
         = ((dir_File df', Some (drop (off (buffer df)) (buf (buffer df)))), st) ∧
    fileInfo df' = fileInfo df ∧ buffer df' = bytes_NewBuffer [].
Proof.
  revert df. induction fuel as [|fuel IH]; intros df Hn Hlen; [lia|].
  simpl. unfold File_Read, DirFile_Read, Buffer_Read. unfold_M.
  destruct n as [|n']; [lia|].
  destruct (drop (off (buffer df)) (buf (buffer df))) as [|b rest] eqn:Hd.
  - simpl. eauto.
  - simpl.
    set (df1 := {| buffer := {| buf := buf (buffer df);
                                off := off (buffer df) + S (length (take n' rest)) |};
                   fileInfo := fileInfo df |}).
    assert (length (b :: rest) = length (buf (buffer df)) - off (buffer df)) as Hl.
    { by rewrite <-Hd, length_drop. }
    simpl in Hl.
    destruct (IH df1) as (df' & HR & Hinfo & Hbuf).
    { done. }
    { simpl. lia. }
    rewrite HR. simpl. exists df'. split; [|done]. do 3 f_equal.
    rewrite <-drop_drop, Hd. simpl. f_equal. apply take_drop_chunk.
Qed.

(** ** More on the tree *)



Lemma diverge_app (c p q : list string) : diverge p q → diverge (c ++ p) (c ++ q).
Proof.
  intros (c' & a & b & p' & q' & -> & -> & Hab).
  exists (c ++ c'), a, b, p', q'. by rewrite <-!app_assoc.
Qed.

(** A location that parts ways with [front ++ [last]] parts ways with
    [front] or lies below it. *)
Lemma diverge_parent (front : list string) (last : string) (q : list string) :
  diverge (front ++ [last]) q →
  diverge front q ∨ ∃ b q', q = front ++ b :: q'.
Proof.
  intros (c & a & b & p' & q' & Hp & -> & Hab).
  destruct p' as [|x p'] using rev_ind.
  - apply app_inj_tail in Hp as [-> ->]. right. eauto.
  - clear IHp'. rewrite app_comm_cons, app_assoc in Hp.
    apply app_inj_tail in Hp as [-> _]. left. by exists c, a, b, p', q'.
Qed.

(** ** More on [Delete] *)

Lemma Delete_frame lfs charmID path st :
  fds (Delete lfs charmID path st).2 = fds st ∧
  cwd (Delete lfs charmID path st).2 = cwd st ∧
  clock (Delete lfs charmID path st).2 = clock st.
Proof.
  rewrite Delete_RemoveAll.
  pose proof (os_RemoveAll_cases (filepath.Join [Path lfs; charmID; path]) st) as Hc.
  destruct (os_RemoveAll _ st) as [err st']. simpl in *.
  inversion Hc; subst; done.
Qed.

(** ** More on paths *)

(** [Clean] is decided by whether the path is rooted and by the
    components it keeps. *)
Lemma Clean_fold (x y : string) :
  x ≠ EmptyString → y ≠ EmptyString →
  filepath.rooted x = filepath.rooted y →
  fold_left (filepath.clean_step (filepath.rooted x)) (strings.Split x) []
  = fold_left (filepath.clean_step (filepath.rooted x)) (strings.Split y) [] →
  filepath.Clean x = filepath.Clean y.
Proof.
  intros Hx Hy Hr Hf. unfold filepath.Clean.
  rewrite !bool_decide_eq_false_2 by done. by rewrite <-Hr, Hf.
Qed.

(** Two identity and path pairs whose components clean alike are joined
    to the same path under any store root. *)
Lemma Join_fold (root_path idA pA idB pB : string) :
  idA ≠ EmptyString → idB ≠ EmptyString →
  filepath.rooted idA = filepath.rooted idB →
  (∀ r acc, fold_left (filepath.clean_step r) (strings.Split idA ++ strings.Split pA) acc
            = fold_left (filepath.clean_step r) (strings.Split idB ++ strings.Split pB) acc) →
  filepath.Join [root_path; idA; pA] = filepath.Join [root_path; idB; pB].
Proof.
  intros HA HB Hr Hf. unfold filepath.Join.
  rewrite (bool_decide_eq_false_2 (idA = EmptyString)) by done.
  rewrite (bool_decide_eq_false_2 (idB = EmptyString)) by done.
  case_bool_decide as Hroot.
  - change (strings.Join [idA; pA]) with (idA +:+ String "/" pA).
    change (strings.Join [idB; pB]) with (idB +:+ String "/" pB).
    apply Clean_fold; [by destruct idA|by destruct idB| |].
    + by rewrite !rooted_app.
    + rewrite !Split_app. apply Hf.
  - change (strings.Join [root_path; idA; pA])
      with (root_path +:+ String "/" (idA +:+ String "/" pA)).
    change (strings.Join [root_path; idB; pB])
      with (root_path +:+ String "/" (idB +:+ String "/" pB)).
    apply Clean_fold; [by destruct root_path|by destruct root_path| |].
    + by rewrite !rooted_app.
    + rewrite !Split_app, !(fold_left_app _ (strings.Split root_path)). apply Hf.
Qed.

(** ** More on [Put] *)



(** [mkdir_all] fails when a regular file is on the way. *)
Lemma mkdir_all_through_file (perm now : Z) (p q : list string) (n : node) d m t :
  walk p n = Found (File d m t) → mkdir_all perm now (p ++ q) n = None.
Proof.
  revert n. induction p as [|s p IH]; intros n; simpl.
  - intros [= ->]. by destruct q.
  - destruct n as [|es m0 t0]; [done|].
    destruct (es !! s) as [c|]; [|done]. intros Hw. by rewrite (IH _ Hw).
Qed.




Section Further.

Variable marshal : charm.FileInfo → option (list byte).

(** The three operations use their identity and path only through the
    joined path. *)
Lemma same_path_same_calls lfs idA pA idB pB :
  filepath.Join [Path lfs; idA; pA] = filepath.Join [Path lfs; idB; pB] →
  (∀ st, Get marshal lfs idA pA st = Get marshal lfs idB pB st) ∧
  (∀ r mode st, Put lfs idA pA r mode st = Put lfs idB pB r mode st) ∧
  (∀ st, Delete lfs idA pA st = Delete lfs idB pB st).
Proof.
  intros HJ. unfold Get, Put, Delete. rewrite HJ. done.
Qed.

(** ** The properties *)

(** X1.  None of [NewLocalFileStore], [Put] and [Delete] leaves a
    descriptor open or moves the working directory: whatever the
    arguments, the state and the outcome, the descriptor table and the
    working directory are afterwards what they were before.  For [Put]
    this is the work of the deferred [Close]. *)
Theorem X1_calls_leave_no_descriptor path lfs charmID p r mode st :
  (fds (NewLocalFileStore path st).2 = fds st ∧
   cwd (NewLocalFileStore path st).2 = cwd st) ∧
  (fds (Put lfs charmID p r mode st).2 = fds st ∧
   cwd (Put lfs charmID p r mode st).2 = cwd st) ∧
  (fds (Delete lfs charmID p st).2 = fds st ∧
   cwd (Delete lfs charmID p st).2 = cwd st).
Proof.
  split; [|split].
  - unfold NewLocalFileStore. unfold_M.
    destruct (storage.EnsureDir path 448 st) as [[e|] st1] eqn:HE.
    + by apply EnsureDir_err in HE as [-> _].
    + by apply EnsureDir_ok in HE as (loc & r1 & _ & _ & ->).
  - destruct (Put_frame lfs charmID p r mode st) as (Hf & Hc & _). done.
  - destruct (Delete_frame lfs charmID p st) as (Hf & Hc & _). done.
Qed.

(** X2.  On a regular file [Get] opens exactly one descriptor, one that
    was not in use, and hands it to the caller; the tree is untouched.
    Closing the handle reports no error and gives back the very state in
    which [Get] was called. *)
Theorem X2_get_file_then_close lfs charmID path st loc d m t :
  locate (cwd st) (filepath.Join [Path lfs; charmID; path]) = Some loc →
  walk loc (root st) = Found (File d m t) →
  ∃ fd st',
    Get marshal lfs charmID path st = (Ok (os_File fd), st') ∧
    fds st !! fd = None ∧
    size (fds st') = S (size (fds st)) ∧
    root st' = root st ∧
    File_Close (os_File fd) st' = (None, st).
Proof.
  intros Hloc Hw. eexists _, _. split.
  { by apply (Get_file marshal _ _ _ _ _ _ _ _ Hloc Hw). }
  split; [apply fresh_fd_None|]. split; [|split; [done|]].
  - simpl. by rewrite map_size_insert_None by apply fresh_fd_None.
  - apply f_Close_opened.
Qed.

(** X3.  The [Stat] of a handle that [Get] returned never fails, and
    answers what [os.Stat] answered for the resolved path when [Get]
    was called.  Its directory flag tells the two kinds of handle apart:
    it is set exactly for a listing.  For a regular file the size it
    reports is the number of bytes that reading the handle to its end
    delivers. *)
Theorem X3_handle_stat lfs charmID path st h st' :
  Get marshal lfs charmID path st = (Ok h, st') →
  ∃ info,
    os_Stat (filepath.Join [Path lfs; charmID; path]) st = (Ok info, st) ∧
    File_Stat h st' = (Ok info, st') ∧
    fs.IsDir (fs.Mode info) = match h with dir_File _ => true | os_File _ => false end ∧
    (fs.IsDir (fs.Mode info) = false →
     ∃ data, fs.Size info = Z.of_nat (length data) ∧
       ∀ n fuel, 0 < n → length data < fuel →
         ∃ h' st'', ReadAll fuel n h st' = ((h', Some data), st'')).
Proof.
  intros HG. set (fp := filepath.Join [Path lfs; charmID; path]) in *.
  destruct (locate (cwd st) fp) as [loc|] eqn:Hloc.
  2:{ rewrite Get_absent in HG; [done|]. unfold missing. fold fp. by rewrite Hloc. }
  destruct (walk loc (root st)) as [[d m t|es m t]| |] eqn:Hw.
  - rewrite (Get_file marshal _ _ _ _ _ _ _ _ Hloc Hw) in HG.
    injection HG as <- <-. fold fp.
    set (o := {| of_loc := loc; of_name := filepath.basename fp; of_off := 0 |}).
    assert (fds (opened loc (filepath.basename fp) st) !! fresh_fd (fds st) = Some o) as Hfd.
    { apply lookup_insert_eq. }
    exists (node_info (filepath.basename fp) (File d m t)).
    split; [|split; [|split]].
    + unfold os_Stat. unfold_M. by rewrite Hloc, Hw.
    + simpl. unfold f_Stat. unfold_M. rewrite Hfd. simpl. by rewrite Hw.
    + apply IsDir_file_mode.
    + intros _. exists d. split; [done|]. intros n fuel Hn Hfuel.
      destruct (ReadAll_os_File fuel n _ _ o d m t Hfd Hw Hn)
        as (st'' & HR & _); [simpl; lia|]. eauto.
  - rewrite (Get_dir marshal _ _ _ _ _ _ _ _ Hloc Hw) in HG. fold fp in HG.
    destruct (json.Marshal marshal (make_slice (listing es))) as [doc|e]; [|done].
    injection HG as <- <-.
    exists (node_info (filepath.basename fp) (Directory es m t)).
    split; [|split; [|split]].
    + unfold os_Stat. unfold_M. by rewrite Hloc, Hw.
    + done.
    + apply IsDir_dir_mode.
    + simpl. by rewrite IsDir_dir_mode.
  - rewrite Get_absent in HG; [done|]. unfold missing. fold fp. by rewrite Hloc, Hw.
  - by rewrite (Get_through_file marshal _ _ _ _ _ Hloc Hw) in HG.
Qed.

(** X4.  A [DirFile] read to its end, with buffers of any positive size,
    delivers the unread part of its buffer and touches nothing of the
    operating system.  Afterwards its [Stat] answers as before the
    reads (the missing-file-info error when it was built without file
    information), every further [Read] answers [io.EOF] again (and
    nothing, without error, for a buffer of size zero), and [Close]
    does nothing. *)
Theorem X4_dirfile_read_to_end (df : DirFile) (n fuel : nat) (st : OS) :
  0 < n →
  length (buf (buffer df)) - off (buffer df) < fuel →
  ∃ df',
    ReadAll fuel n (dir_File df) st
    = ((dir_File df', Some (drop (off (buffer df)) (buf (buffer df)))), st) ∧
    DirFile_Stat df' = DirFile_Stat df ∧
    (fileInfo df = None → DirFile_Stat df' = Err (Errorf "missing file info")) ∧
    (∀ k, 0 < k → File_Read (dir_File df') k st = ((dir_File df', Err EOF), st)) ∧
    File_Read (dir_File df') 0 st = ((dir_File df', Ok []), st) ∧
    File_Close (dir_File df') st = (None, st).
Proof.
  intros Hn Hfuel.
  destruct (ReadAll_dir_File_end fuel n df st Hn Hfuel) as (df' & HR & Hinfo & Hbuf).
  exists df'. split; [done|].
  unfold DirFile_Stat. rewrite Hinfo. split; [done|]. split; [by intros ->|].
  destruct df' as [b' i']. simpl in Hbuf. subst b'.
  split; [|done]. intros [|k] Hk; [lia|]. done.
Qed.
(** X5.  [Delete] is idempotent: after a [Delete] that reported no
    error, the same [Delete] again reports no error and changes nothing. *)
Theorem X5_delete_twice lfs charmID path st st' :
  Delete lfs charmID path st = (None, st') →
  Delete lfs charmID path st' = (None, st').
Proof.
  rewrite !Delete_RemoveAll.
  set (fp := filepath.Join [Path lfs; charmID; path]).
  pose proof (os_RemoveAll_cases fp st) as Hc.
  intros HD. rewrite HD in Hc. simpl in Hc.
  inversion Hc as [He | | loc Hloc Hw | | loc parent base n Hdot Hloc Hw Hp | ]; subst.
  - done.
  - done.
  - unfold os_RemoveAll. unfold_M. simpl.
    assert (fp ≠ EmptyString) as Hne.
    { intros He. unfold locate in Hloc. by rewrite He in Hloc. }
    rewrite bool_decide_eq_false_2 by done. rewrite Hdot. simpl. rewrite Hloc.
    apply parent_of_app in Hp as Hl. rewrite Hl.
    rewrite Hl, walk_app in Hw.
    destruct (walk parent (root st)) as [d| |] eqn:Hwp; try done.
    rewrite (walk_alter_node _ _ _ _ _ Hwp).
    destruct d as [|es m t]; [done|]. simpl. by rewrite lookup_delete_eq.
Qed.


(** X7.  Empty components, [.] components and repeated or trailing
    separators in the path argument make no difference: two paths
    without [..] that have the same components naming entries are the
    same path to [Get], [Put] and [Delete], for every non-empty identity. *)
Theorem X7_equivalent_paths lfs charmID p p' :
  charmID ≠ EmptyString →
  no_dotdot p = true → no_dotdot p' = true →
  names p = names p' →
  (∀ st, Get marshal lfs charmID p st = Get marshal lfs charmID p' st) ∧
  (∀ r mode st, Put lfs charmID p r mode st = Put lfs charmID p' r mode st) ∧
  (∀ st, Delete lfs charmID p st = Delete lfs charmID p' st).
Proof.
  unfold no_dotdot, names. rewrite !bool_decide_eq_true. intros Hid Hp Hp' Hn.
  apply same_path_same_calls, Join_fold; try done.
  intros r acc. rewrite !fold_left_app.
  rewrite (clean_fold_names _ (strings.Split p)), (clean_fold_names _ (strings.Split p')) by done.
  by rewrite Hn.
Qed.

(** X8.  A path that climbs out of the namespace reaches the namespace
    of another identity: for identities that are proper path components,
    the path [../B/p] given with identity [A] is joined to the very path
    that [p] given with identity [B] is joined to, so that [Get], [Put]
    and [Delete] of the one are [Get], [Put] and [Delete] of the other. *)
Theorem X8_dotdot_reaches_other_identity lfs idA idB path :
  is_name idA = true → is_name idB = true →
  filepath.Join [Path lfs; idA; "../" +:+ idB +:+ "/" +:+ path]
  = filepath.Join [Path lfs; idB; path]
  ∧ (∀ st, Get marshal lfs idA ("../" +:+ idB +:+ "/" +:+ path) st
           = Get marshal lfs idB path st)
  ∧ (∀ r mode st, Put lfs idA ("../" +:+ idB +:+ "/" +:+ path) r mode st
                  = Put lfs idB path r mode st)
  ∧ (∀ st, Delete lfs idA ("../" +:+ idB +:+ "/" +:+ path) st
           = Delete lfs idB path st).
Proof.
  unfold is_name. rewrite !andb_true_iff, !bool_decide_eq_true.
  intros [[[HsA HneA] HdA] HddA] [[[HsB HneB] HdB] HddB].
  assert (filepath.Join [Path lfs; idA; "../" +:+ idB +:+ "/" +:+ path]
          = filepath.Join [Path lfs; idB; path]) as HJ.
  { apply Join_fold; try done.
    - by rewrite !no_sep_rooted.
    - intros r acc.
      change ("../" +:+ idB +:+ "/" +:+ path) with (".." +:+ String "/" (idB +:+ String "/" path)).
      rewrite !Split_app, HsA, HsB. simpl.
      assert (filepath.clean_step r acc idA = idA :: acc) as ->.
      { unfold filepath.clean_step. by rewrite !bool_decide_eq_false_2. }
      assert (filepath.clean_step r (idA :: acc) ".." = acc) as ->; [|done].
      unfold filepath.clean_step. simpl. by rewrite bool_decide_eq_false_2. }
  split; [done|]. by apply same_path_same_calls.
Qed.

(** X9.  A file that [Put] has written shows in the listing of its
    parent directory: after a [Put] of the bytes [c] that reports no
    error, the directory above the resolved location has an entry with
    the last component as name, the directory flag unset, the length of
    [c] as size, the time of the write as modification time and the mode
    the file was left with; and [Get] of a path that resolves to that
    directory returns the listing that holds this entry. *)
Theorem X9_put_then_list_parent lfs charmID path (c : list byte) mode st st1
    parent base idP pathP :
  fs.IsDir mode = false →
  Put lfs charmID path (bytes_NewReader c) mode st = (None, st1) →
  locate (cwd st) (filepath.Join [Path lfs; charmID; path]) = Some (parent ++ [base]) →
  locate (cwd st) (filepath.Join [Path lfs; idP; pathP]) = Some parent →
  ∃ es m t,
    walk parent (root st1) = Found (Directory es m t) ∧
    {| charm.Name := base; charm.IsDir := false;
       charm.Size := Z.of_nat (length c); charm.ModTime := clock st;
       charm.Mode := syscallMode (mode_after_Put mode (walk (parent ++ [base]) (root st))) |}
    ∈ listing es ∧
    ∀ doc, json.Marshal marshal (make_slice (listing es)) = Ok doc →
      ∃ info st2,
        Get marshal lfs idP pathP st1
        = (Ok (dir_File {| buffer := bytes_NewBuffer (doc ++ [x0a]); fileInfo := Some info |}),
           st2).
Proof.
  intros Hmode HPut Hloc HlocP.
  destruct (Put_file_ok _ _ _ _ _ _ _ Hmode HPut) as (loc & r' & Hloc' & -> & _ & Hw).
  rewrite Hloc in Hloc'. injection Hloc' as <-. simpl in Hw.
  rewrite walk_app in Hw.
  destruct (walk parent r') as [[d m t|es m t]| |] eqn:Hwp; try done.
  simpl in Hw. destruct (es !! base) as [x|] eqn:Hes; [|done].
  injection Hw as ->.
  exists es, m, t. split; [done|]. split.
  - unfold listing. apply list_elem_of_fmap.
    eexists (base, _). split; [|apply elem_of_map_to_list; exact Hes]. done.
  - intros doc Hdoc. eexists _, _.
    by rewrite (Get_dir marshal lfs idP pathP (set_root r' st) parent es m t HlocP Hwp), Hdoc.
Qed.


(** X11.  A [Put] with a non-directory mode onto an existing directory
    is refused: the creation of the file fails because the target is a
    directory, that error is returned, and nothing has changed, the
    directory and all it holds included. *)
Theorem X11_put_file_onto_directory lfs charmID path (r : Reader) mode st es m t :
  is_name charmID = true →
  no_dotdot path = true →
  fs.IsDir mode = false →
  walk (namespace (cwd st) lfs charmID ++ names path) (root st) = Found (Directory es m t) →
  Put lfs charmID path r mode st = (Some (PathError EISDIR), st).
Proof.
  intros Hid Hp Hmode Hw.
  set (fp := filepath.Join [Path lfs; charmID; path]).
  assert (locate (cwd st) fp = Some (namespace (cwd st) lfs charmID ++ names path)) as Hloc.
  { unfold fp. rewrite (locate_Join _ _ _ _ Hid Hp). unfold namespace. by rewrite <-app_assoc. }
  destruct (locate_Dir_Join (cwd st) (Path lfs) charmID path Hid Hp)
    as (front & last & Hfl & Hploc). fold fp in Hploc.
  set (ploc := abs_segments (cwd st) (Path lfs) ++ front) in *.
  assert (namespace (cwd st) lfs charmID ++ names path = ploc ++ [last]) as Hsplit.
  { unfold namespace, ploc. by rewrite <-!app_assoc, <-Hfl. }
  assert (∃ es' m' t', walk ploc (root st) = Found (Directory es' m' t')) as (es' & m' & t' & Hwp).
  { rewrite Hsplit, walk_app in Hw.
    destruct (walk ploc (root st)) as [[d0 m0 t0|es0 m0 t0]| |]; try done. eauto. }
  pose proof (EnsureDir_run (filepath.Dir fp) mode st ploc (root st) Hploc
                (mkdir_all_existing _ _ _ _ _ _ _ Hwp)) as HE.
  rewrite set_root_same in HE.
  unfold Put. rewrite Hmode. fold fp. unfold_M. rewrite HE.
  unfold os_Create. unfold_M. rewrite Hloc, Hw. simpl.
  unfold f_Close. by unfold_M.
Qed.

(** X12.  [NewLocalFileStore] returns a store on exactly the path it
    was given, uncleaned, and when it does the path resolves to a
    directory; no regular file has changed; and the same call again
    returns the same store and changes nothing.  When it fails, it
    returns no store and nothing has changed. *)
Theorem X12_new_store (path : string) (st : OS) :
  (∀ lfs st', NewLocalFileStore path st = (Ok lfs, st') →
     Path lfs = path ∧
     (∃ loc es m t, locate (cwd st) path = Some loc ∧
        walk loc (root st') = Found (Directory es m t)) ∧
     (∀ q d m t, walk q (root st') = Found (File d m t) ↔ walk q (root st) = Found (File d m t)) ∧
     NewLocalFileStore path st' = (Ok lfs, st')) ∧
  (∀ e st', NewLocalFileStore path st = (Err e, st') → st' = st).
Proof.
  unfold NewLocalFileStore. unfold_M. split.
  - intros lfs st'.
    destruct (storage.EnsureDir path 448 st) as [[e|] st1] eqn:HE; [done|].
    intros [= <- <-].
    apply EnsureDir_ok in HE as (loc & r1 & Hloc & Hmk & ->).
    split; [done|].
    destruct (mkdir_all_prefix _ _ loc [] _ _ ltac:(rewrite app_nil_r; exact Hmk))
      as (es & m & t & Hw & _).
    split; [by exists loc, es, m, t|]. split.
    + intros q d m0 t0. by apply (mkdir_all_file _ _ _ _ _ _ _ _ _ Hmk).
    + erewrite (EnsureDir_run path 448 (set_root r1 st) loc r1); [done|done|].
      simpl. by apply (mkdir_all_existing _ _ _ _ es m t).
  - intros e st'.
    destruct (storage.EnsureDir path 448 st) as [[e1|] st1] eqn:HE; [|done].
    intros [= <- <-]. by apply EnsureDir_err in HE as [-> _].
Qed.

(** X13.  After a [Put] with a directory mode that reports no error,
    the resolved location is a directory: the one that was there, with
    the entries it had, or a new empty one.  [Get] of the same identity
    and path then returns its listing, which for a new directory is the
    empty array. *)
Theorem X13_put_directory_then_get lfs charmID path (r : Reader) mode st st1 :
  fs.IsDir mode = true →
  Put lfs charmID path r mode st = (None, st1) →
  ∃ loc es m t,
    locate (cwd st) (filepath.Join [Path lfs; charmID; path]) = Some loc ∧
    walk loc (root st1) = Found (Directory es m t) ∧
    match walk loc (root st) with
    | Found d => d = Directory es m t
    | _ => es = ∅
    end ∧
    (∀ doc, json.Marshal marshal (make_slice (listing es)) = Ok doc →
       ∃ info st2,
         Get marshal lfs charmID path st1
         = (Ok (dir_File {| buffer := bytes_NewBuffer (doc ++ [x0a]); fileInfo := Some info |}),
            st2)) ∧
    (es = ∅ →
       ∃ info st2,
         Get marshal lfs charmID path st1
         = (Ok (dir_File {| buffer := bytes_NewBuffer [x5b; x5d; x0a]; fileInfo := Some info |}),
            st2)).
Proof.
  intros Hmode. unfold Put. rewrite Hmode.
  intros (loc & r1 & Hloc & Hmk & ->)%EnsureDir_ok.
  pose proof (mkdir_all_target _ _ _ _ _ Hmk) as Hw.
  destruct (mkdir_all_prefix _ _ loc [] _ _ ltac:(rewrite app_nil_r; exact Hmk))
    as (es & m & t & Hw' & Hpre).
  rewrite Hw in Hw'. injection Hw' as Heq.
  assert (walk loc (root (set_root r1 st)) = Found (Directory es m t)) as Hw1.
  { simpl. by rewrite Hw, Heq. }
  exists loc, es, m, t. split; [done|]. split; [done|]. split; [|split].
  - destruct (walk loc (root st)) as [d| |]; [done|by injection Heq|done].
  - intros doc Hdoc. eexists _, _.
    rewrite (Get_dir marshal lfs charmID path (set_root r1 st) loc es m t Hloc Hw1).
    by rewrite Hdoc.
  - intros ->. eexists _, _.
    rewrite (Get_dir marshal lfs charmID path (set_root r1 st) loc ∅ m t Hloc Hw1).
    unfold listing. rewrite map_to_list_empty. reflexivity.
Qed.

(** X14.  What one writes or deletes does not change what is read
    elsewhere.  For identities that are proper path components and paths
    without [..], when the components of one identity and path part ways
    with those of another, neither a [Put] nor a [Delete] of the first,
    whatever its outcome, changes the answer of [Get] for the second. *)
Theorem X14_get_unaffected_elsewhere lfs idA pA idB pB (r : Reader) mode st :
  is_name idA = true → is_name idB = true →
  no_dotdot pA = true → no_dotdot pB = true →
  diverge (idA :: names pA) (idB :: names pB) →
  (Get marshal lfs idB pB (Put lfs idA pA r mode st).2).1 = (Get marshal lfs idB pB st).1 ∧
  (Get marshal lfs idB pB (Delete lfs idA pA st).2).1 = (Get marshal lfs idB pB st).1.
Proof.
  intros HA HB HpA HpB Hdiv.
  pose proof (locate_Join (cwd st) (Path lfs) idA pA HA HpA) as HlocA.
  pose proof (locate_Join (cwd st) (Path lfs) idB pB HB HpB) as HlocB.
  apply (diverge_app (abs_segments (cwd st) (Path lfs))) in Hdiv as Hdiv'.
  destruct (Put_frame lfs idA pA r mode st) as (HfP & HcP & _).
  destruct (Delete_frame lfs idA pA st) as (HfD & HcD & _).
  split.
  - apply (Get_reads_location marshal _ _ _ _ _ _ HlocB HcP HfP).
    apply Put_root_frame.
    + intros loc. rewrite HlocA. by intros [= <-].
    + intros ploc.
      destruct (locate_Dir_Join (cwd st) (Path lfs) idA pA HA HpA)
        as (front & last & Hfl & ->).
      intros [= <-]. rewrite Hfl in Hdiv.
      destruct (diverge_parent _ _ _ Hdiv) as [Hd|(b & q' & Hq)].
      * left. by apply diverge_app.
      * right. exists b, q'. by rewrite Hq, <-app_assoc.
  - apply (Get_reads_location marshal _ _ _ _ _ _ HlocB HcD HfD).
    apply Delete_root_frame. intros loc. rewrite HlocA. by intros [= <-].
Qed.

(** X15.  On every directory [Get] leaves the descriptor open that it
    opened to read the entries: whatever the outcome, the tree is as
    before and the descriptor table holds one descriptor more.  When the
    encoder rejects an entry, [Get] returns the error of the encoder and
    no handle; when it returns a handle, closing the handle reports no
    error and releases nothing. *)
Theorem X15_get_directory_keeps_descriptor lfs charmID path st loc es m t :
  locate (cwd st) (filepath.Join [Path lfs; charmID; path]) = Some loc →
  walk loc (root st) = Found (Directory es m t) →
  root (Get marshal lfs charmID path st).2 = root st ∧
  size (fds (Get marshal lfs charmID path st).2) = S (size (fds st)) ∧
  (json.marshal_all marshal (listing es) = None →
   (Get marshal lfs charmID path st).1 = Err MarshalerError) ∧
  (∀ h, (Get marshal lfs charmID path st).1 = Ok h →
     File_Close h (Get marshal lfs charmID path st).2
     = (None, (Get marshal lfs charmID path st).2)).
Proof.
  intros Hloc Hw. rewrite (Get_dir marshal _ _ _ _ _ _ _ _ Hloc Hw). simpl.
  split; [done|]. split; [|split].
  - by rewrite map_size_insert_None by apply fresh_fd_None.
  - unfold json.Marshal. by intros ->.
  - intros h. by destruct (json.Marshal _ _); intros [= <-].
Qed.


(** X17.  A [Put] with a non-directory mode of a path that runs on
    below a regular file fails with the not-a-directory error and
    changes nothing (the identity being one proper path component and
    the path having no [..] component). *)
Theorem X17_put_below_file lfs charmID path (r : Reader) mode st p q d m t :
  is_name charmID = true →
  no_dotdot path = true →
  fs.IsDir mode = false →
  namespace (cwd st) lfs charmID ++ names path = p ++ q → q ≠ [] →
  walk p (root st) = Found (File d m t) →
  Put lfs charmID path r mode st = (Some (PathError ENOTDIR), st).
Proof.
  intros Hid Hp Hmode Hsplit Hq Hw.
  set (fp := filepath.Join [Path lfs; charmID; path]).
  destruct (locate_Dir_Join (cwd st) (Path lfs) charmID path Hid Hp)
    as (front & last & Hfl & Hploc). fold fp in Hploc.
  assert (abs_segments (cwd st) (Path lfs) ++ front = p ++ removelast q) as Hpl.
  { unfold namespace in Hsplit. rewrite <-app_assoc in Hsplit. simpl in Hsplit.
    rewrite Hfl, app_assoc in Hsplit.
    destruct (exists_last Hq) as (q' & x & ->).
    rewrite removelast_last. rewrite app_assoc in Hsplit.
    by apply app_inj_tail in Hsplit as [-> _]. }
  rewrite Hpl in Hploc.
  unfold Put. rewrite Hmode. fold fp. unfold_M.
  unfold storage.EnsureDir, os_MkdirAll. unfold_M.
  by rewrite Hploc, (mkdir_all_through_file _ _ _ _ _ _ _ _ Hw).
Qed.

End Further.

(** ** The further properties on the example store *)

(** X2 on the example store: the note is opened and closed again. *)
Lemma X2_witness :
  locate (cwd example_notes) (filepath.Join [Path example_store; "abc"; "notes/todo.txt"])
  = Some ["srv"; "charm"; "abc"; "notes"; "todo.txt"] ∧
  walk ["srv"; "charm"; "abc"; "notes"; "todo.txt"] (root example_notes)
  = Found (File buy_milk 420 100) ∧
  ∃ fd st',
    Get example_marshal example_store "abc" "notes/todo.txt" example_notes
    = (Ok (os_File fd), st') ∧
    fds example_notes !! fd = None ∧
    size (fds st') = S (size (fds example_notes)) ∧
    root st' = root example_notes ∧
    File_Close (os_File fd) st' = (None, example_notes).
Proof.
  split; [vm_compute; reflexivity|]. split; [vm_compute; reflexivity|].
  apply (X2_get_file_then_close example_marshal example_store "abc" "notes/todo.txt"
           example_notes ["srv"; "charm"; "abc"; "notes"; "todo.txt"] buy_milk 420 100);
    vm_compute; reflexivity.
Defined.

(** X3 on the example store: the [Stat] of the handle of the note. *)
Lemma X3_witness :
  Get example_marshal example_store "abc" "notes/todo.txt" example_notes
  = (Ok (os_File 0),
     (Get example_marshal example_store "abc" "notes/todo.txt" example_notes).2) ∧
  ∃ info,
    os_Stat (filepath.Join [Path example_store; "abc"; "notes/todo.txt"]) example_notes
    = (Ok info, example_notes) ∧
    File_Stat (os_File 0)
      (Get example_marshal example_store "abc" "notes/todo.txt" example_notes).2
    = (Ok info, (Get example_marshal example_store "abc" "notes/todo.txt" example_notes).2) ∧
    fs.IsDir (fs.Mode info) = false ∧
    (fs.IsDir (fs.Mode info) = false →
     ∃ data, fs.Size info = Z.of_nat (length data) ∧
       ∀ n fuel, 0 < n → length data < fuel →
         ∃ h' st'',
           ReadAll fuel n (os_File 0)
             (Get example_marshal example_store "abc" "notes/todo.txt" example_notes).2
           = ((h', Some data), st'')).
Proof.
  split; [vm_compute; reflexivity|].
  apply (X3_handle_stat example_marshal example_store "abc" "notes/todo.txt" example_notes
           (os_File 0)).
  vm_compute; reflexivity.
Defined.

(** X4 on a [DirFile] without file information that holds the listing
    of an empty directory, read with buffers of two bytes. *)
Lemma X4_witness :
  0 < 2 ∧
  length (buf (buffer {| buffer := bytes_NewBuffer [x5b; x5d; x0a]; fileInfo := None |}))
  - off (buffer {| buffer := bytes_NewBuffer [x5b; x5d; x0a]; fileInfo := None |}) < 4 ∧
  ∃ df',
    ReadAll 4 2 (dir_File {| buffer := bytes_NewBuffer [x5b; x5d; x0a]; fileInfo := None |})
      example_boot
    = ((dir_File df', Some [x5b; x5d; x0a]), example_boot) ∧
    DirFile_Stat df'
    = DirFile_Stat {| buffer := bytes_NewBuffer [x5b; x5d; x0a]; fileInfo := None |} ∧
    (fileInfo {| buffer := bytes_NewBuffer [x5b; x5d; x0a]; fileInfo := None |} = None →
     DirFile_Stat df' = Err (Errorf "missing file info")) ∧
    (∀ k, 0 < k → File_Read (dir_File df') k example_boot = ((dir_File df', Err EOF), example_boot)) ∧
    File_Read (dir_File df') 0 example_boot = ((dir_File df', Ok []), example_boot) ∧
    File_Close (dir_File df') example_boot = (None, example_boot).
Proof.
  split; [lia|]. split; [simpl; lia|].
  apply (X4_dirfile_read_to_end
           {| buffer := bytes_NewBuffer [x5b; x5d; x0a]; fileInfo := None |} 2 4 example_boot);
    simpl; lia.
Defined.

(** X5 on the example store: [notes] is deleted twice. *)
Lemma X5_witness :
  Delete example_store "abc" "notes" example_notes
  = (None, (Delete example_store "abc" "notes" example_notes).2) ∧
  Delete example_store "abc" "notes" (Delete example_store "abc" "notes" example_notes).2
  = (None, (Delete example_store "abc" "notes" example_notes).2).
Proof.
  split; [vm_compute; reflexivity|].
  apply (X5_delete_twice example_store "abc" "notes" example_notes).
  vm_compute; reflexivity.
Defined.


(** X7 on two spellings of the path of the note. *)
Lemma X7_witness :
  "abc" ≠ EmptyString ∧
  no_dotdot "notes//./todo.txt/" = true ∧ no_dotdot "notes/todo.txt" = true ∧
  names "notes//./todo.txt/" = names "notes/todo.txt" ∧
  (∀ st, Get example_marshal example_store "abc" "notes//./todo.txt/" st
         = Get example_marshal example_store "abc" "notes/todo.txt" st) ∧
  (∀ r mode st, Put example_store "abc" "notes//./todo.txt/" r mode st
                = Put example_store "abc" "notes/todo.txt" r mode st) ∧
  (∀ st, Delete example_store "abc" "notes//./todo.txt/" st
         = Delete example_store "abc" "notes/todo.txt" st).
Proof.
  split; [discriminate|]. split; [reflexivity|]. split; [reflexivity|].
  split; [vm_compute; reflexivity|].
  apply (X7_equivalent_paths example_marshal example_store "abc"
           "notes//./todo.txt/" "notes/todo.txt");
    [discriminate|reflexivity|reflexivity|vm_compute; reflexivity].
Defined.

(** X8 for the identities [alice] and [bob] and the path [key]. *)
Lemma X8_witness :
  is_name "alice" = true ∧ is_name "bob" = true ∧
  filepath.Join [Path example_store; "alice"; "../" +:+ "bob" +:+ "/" +:+ "key"]
  = filepath.Join [Path example_store; "bob"; "key"]
  ∧ (∀ st, Get example_marshal example_store "alice" ("../" +:+ "bob" +:+ "/" +:+ "key") st
           = Get example_marshal example_store "bob" "key" st)
  ∧ (∀ r mode st, Put example_store "alice" ("../" +:+ "bob" +:+ "/" +:+ "key") r mode st
                  = Put example_store "bob" "key" r mode st)
  ∧ (∀ st, Delete example_store "alice" ("../" +:+ "bob" +:+ "/" +:+ "key") st
           = Delete example_store "bob" "key" st).
Proof.
  split; [reflexivity|]. split; [reflexivity|].
  apply (X8_dotdot_reaches_other_identity example_marshal example_store "alice" "bob" "key");
    reflexivity.
Defined.

(** X9 on the example store: the note shows in the listing of [notes]. *)
Lemma X9_witness :
  fs.IsDir 420 = false ∧
  Put example_store "abc" "notes/todo.txt" (bytes_NewReader buy_milk) 420 example_boot
  = (None, example_notes) ∧
  locate (cwd example_boot) (filepath.Join [Path example_store; "abc"; "notes/todo.txt"])
  = Some (["srv"; "charm"; "abc"; "notes"] ++ ["todo.txt"]) ∧
  locate (cwd example_boot) (filepath.Join [Path example_store; "abc"; "notes"])
  = Some ["srv"; "charm"; "abc"; "notes"] ∧
  ∃ es m t,
    walk ["srv"; "charm"; "abc"; "notes"] (root example_notes) = Found (Directory es m t) ∧
    {| charm.Name := "todo.txt"; charm.IsDir := false;
       charm.Size := Z.of_nat (length buy_milk); charm.ModTime := clock example_boot;
       charm.Mode := syscallMode
                       (mode_after_Put 420
                          (walk (["srv"; "charm"; "abc"; "notes"] ++ ["todo.txt"])
                             (root example_boot))) |}
    ∈ listing es ∧
    ∀ doc, json.Marshal example_marshal (make_slice (listing es)) = Ok doc →
      ∃ info st2,
        Get example_marshal example_store "abc" "notes" example_notes
        = (Ok (dir_File {| buffer := bytes_NewBuffer (doc ++ [x0a]); fileInfo := Some info |}),
           st2).
Proof.
  split; [reflexivity|]. split; [vm_compute; reflexivity|].
  split; [vm_compute; reflexivity|]. split; [vm_compute; reflexivity|].
  apply (X9_put_then_list_parent example_marshal example_store "abc" "notes/todo.txt"
           buy_milk 420 example_boot example_notes ["srv"; "charm"; "abc"; "notes"] "todo.txt"
           "abc" "notes");
    vm_compute; reflexivity.
Defined.


(** X11 on the example store: a file is put where [notes] is. *)
Lemma X11_witness :
  is_name "abc" = true ∧ no_dotdot "notes" = true ∧ fs.IsDir 420 = false ∧
  walk (namespace (cwd example_notes) example_store "abc" ++ names "notes") (root example_notes)
  = Found (Directory {[ "todo.txt" := File buy_milk 420 100 ]} 420 100) ∧
  Put example_store "abc" "notes" (bytes_NewReader buy_milk) 420 example_notes
  = (Some (PathError EISDIR), example_notes).
Proof.
  split; [reflexivity|]. split; [reflexivity|]. split; [reflexivity|].
  split; [vm_compute; reflexivity|].
  apply (X11_put_file_onto_directory example_store "abc" "notes" (bytes_NewReader buy_milk)
           420 example_notes {[ "todo.txt" := File buy_milk 420 100 ]} 420 100);
    [reflexivity|reflexivity|reflexivity|vm_compute; reflexivity].
Defined.

(** X12 at boot: the store is made on [/srv/charm]; on the empty path
    the call fails. *)
Lemma X12_witness :
  NewLocalFileStore "/srv/charm" example_boot
  = (Ok example_store, (NewLocalFileStore "/srv/charm" example_boot).2) ∧
  (Path example_store = "/srv/charm" ∧
   (∃ loc es m t, locate (cwd example_boot) "/srv/charm" = Some loc ∧
      walk loc (root (NewLocalFileStore "/srv/charm" example_boot).2)
      = Found (Directory es m t)) ∧
   (∀ q d m t,
      walk q (root (NewLocalFileStore "/srv/charm" example_boot).2) = Found (File d m t)
      ↔ walk q (root example_boot) = Found (File d m t)) ∧
   NewLocalFileStore "/srv/charm" (NewLocalFileStore "/srv/charm" example_boot).2
   = (Ok example_store, (NewLocalFileStore "/srv/charm" example_boot).2)) ∧
  NewLocalFileStore EmptyString example_boot = (Err (PathError ENOENT), example_boot).
Proof.
  assert (NewLocalFileStore "/srv/charm" example_boot
          = (Ok example_store, (NewLocalFileStore "/srv/charm" example_boot).2)) as HN.
  { vm_compute; reflexivity. }
  split; [exact HN|]. split; [|vm_compute; reflexivity].
  exact (proj1 (X12_new_store "/srv/charm" example_boot) _ _ HN).
Defined.

(** X13 on the example store: [inbox] is made and then listed. *)
Lemma X13_witness :
  fs.IsDir (Z.lor fs.ModeDir 493) = true ∧
  Put example_store "abc" "inbox" (bytes_NewReader []) (Z.lor fs.ModeDir 493) example_boot
  = (None, example_inbox) ∧
  ∃ loc es m t,
    locate (cwd example_boot) (filepath.Join [Path example_store; "abc"; "inbox"]) = Some loc ∧
    walk loc (root example_inbox) = Found (Directory es m t) ∧
    match walk loc (root example_boot) with
    | Found d => d = Directory es m t
    | _ => es = ∅
    end ∧
    (∀ doc, json.Marshal example_marshal (make_slice (listing es)) = Ok doc →
       ∃ info st2,
         Get example_marshal example_store "abc" "inbox" example_inbox
         = (Ok (dir_File {| buffer := bytes_NewBuffer (doc ++ [x0a]); fileInfo := Some info |}),
            st2)) ∧
    (es = ∅ →
       ∃ info st2,
         Get example_marshal example_store "abc" "inbox" example_inbox
         = (Ok (dir_File {| buffer := bytes_NewBuffer [x5b; x5d; x0a]; fileInfo := Some info |}),
            st2)).
Proof.
  split; [reflexivity|]. split; [vm_compute; reflexivity|].
  apply (X13_put_directory_then_get example_marshal example_store "abc" "inbox"
           (bytes_NewReader []) (Z.lor fs.ModeDir 493) example_boot example_inbox);
    [reflexivity|vm_compute; reflexivity].
Defined.

(** X14 on the example store: writing or deleting [notes/other.txt]
    does not change what is read at [notes/todo.txt]. *)
Lemma X14_witness :
  is_name "abc" = true ∧
  no_dotdot "notes/other.txt" = true ∧ no_dotdot "notes/todo.txt" = true ∧
  diverge ("abc" :: names "notes/other.txt") ("abc" :: names "notes/todo.txt") ∧
  ∀ r mode,
    (Get example_marshal example_store "abc" "notes/todo.txt"
       (Put example_store "abc" "notes/other.txt" r mode example_notes).2).1
    = (Get example_marshal example_store "abc" "notes/todo.txt" example_notes).1 ∧
    (Get example_marshal example_store "abc" "notes/todo.txt"
       (Delete example_store "abc" "notes/other.txt" example_notes).2).1
    = (Get example_marshal example_store "abc" "notes/todo.txt" example_notes).1.
Proof.
  assert (diverge ("abc" :: names "notes/other.txt") ("abc" :: names "notes/todo.txt")) as Hd.
  { exists ["abc"; "notes"], "other.txt", "todo.txt", [], [].
    split; [vm_compute; reflexivity|]. split; [vm_compute; reflexivity|]. discriminate. }
  split; [reflexivity|]. split; [reflexivity|]. split; [reflexivity|]. split; [exact Hd|].
  intros r mode.
  apply (X14_get_unaffected_elsewhere example_marshal example_store "abc" "notes/other.txt"
           "abc" "notes/todo.txt" r mode example_notes);
    [reflexivity|reflexivity|reflexivity|reflexivity|exact Hd].
Defined.

(** X15 on the example store: the directory [notes] is listed. *)
Lemma X15_witness :
  locate (cwd example_notes) (filepath.Join [Path example_store; "abc"; "notes"])
  = Some ["srv"; "charm"; "abc"; "notes"] ∧
  walk ["srv"; "charm"; "abc"; "notes"] (root example_notes)
  = Found (Directory {[ "todo.txt" := File buy_milk 420 100 ]} 420 100) ∧
  root (Get example_marshal example_store "abc" "notes" example_notes).2 = root example_notes ∧
  size (fds (Get example_marshal example_store "abc" "notes" example_notes).2)
  = S (size (fds example_notes)) ∧
  (json.marshal_all example_marshal (listing {[ "todo.txt" := File buy_milk 420 100 ]}) = None →
   (Get example_marshal example_store "abc" "notes" example_notes).1 = Err MarshalerError) ∧
  (∀ h, (Get example_marshal example_store "abc" "notes" example_notes).1 = Ok h →
     File_Close h (Get example_marshal example_store "abc" "notes" example_notes).2
     = (None, (Get example_marshal example_store "abc" "notes" example_notes).2)).
Proof.
  split; [vm_compute; reflexivity|]. split; [vm_compute; reflexivity|].
  apply (X15_get_directory_keeps_descriptor example_marshal example_store "abc" "notes"
           example_notes ["srv"; "charm"; "abc"; "notes"]
           {[ "todo.txt" := File buy_milk 420 100 ]} 420 100);
    vm_compute; reflexivity.
Defined.


(** X17 on the example store: a file is put below the note. *)
Lemma X17_witness :
  is_name "abc" = true ∧ no_dotdot "notes/todo.txt/x" = true ∧ fs.IsDir 420 = false ∧
  namespace (cwd example_notes) example_store "abc" ++ names "notes/todo.txt/x"
  = ["srv"; "charm"; "abc"; "notes"; "todo.txt"] ++ ["x"] ∧
  ["x"] ≠ [] ∧
  walk ["srv"; "charm"; "abc"; "notes"; "todo.txt"] (root example_notes)
  = Found (File buy_milk 420 100) ∧
  Put example_store "abc" "notes/todo.txt/x" (bytes_NewReader buy_milk) 420 example_notes
  = (Some (PathError ENOTDIR), example_notes).
Proof.
  split; [reflexivity|]. split; [reflexivity|]. split; [reflexivity|].
  split; [vm_compute; reflexivity|]. split; [discriminate|].
  split; [vm_compute; reflexivity|].
  apply (X17_put_below_file example_store "abc" "notes/todo.txt/x" (bytes_NewReader buy_milk)
           420 example_notes ["srv"; "charm"; "abc"; "notes"; "todo.txt"] ["x"] buy_milk 420 100);
    [reflexivity|reflexivity|reflexivity|vm_compute; reflexivity|discriminate
    |vm_compute; reflexivity].
Defined.
